(** * Weather analytics pipeline: collector, analyzer and quality checker

  A shallow embedding of [data_collector.py], [data_analyzer.py],
  [data_quality.py] and the constructors of [data_visualizer.py] and
  [chart_generator.py], with the properties of the pipeline contract
  stated and settled against it.

  Modelling conventions.
  - A nullable SQL [REAL] (and the Python value read back from it) is an
    [option Q]: [None] is SQL [NULL] / Python [None].  Arithmetic is exact
    rational arithmetic; the rounding error of IEEE doubles is not modelled.
  - A table is the list of its rows in rowid order.
  - A Python [dict] keyed by city is a [gmap].
  - The body of a response is an arbitrary JSON document; what
    [_save_to_db] does with it, raising included, is followed value by
    value.  A string is the sequence of its characters.
  - A call of the collector ends in [Py.Returns], or in [Py.Raises] when an
    exception leaves it; the transaction of [_save_to_db] is then rolled
    back, so the store is as the constructor left it.  [Py.NotModelled]
    marks the calls that return after storing a value that the typed
    tables of this development do not hold (a text in a numeric column, a
    number in a date column); nothing is stated about those.
  - The database files on disk are a [gmap] from path to database; a reader
    that opens a path holding no database raises (sqlite3 reports a missing
    table), which is [None] in the option monad.  A path is the string
    given: two spellings of one location are two paths here. *)

From Stdlib Require Import QArith Qround Qminmax Lqa.
From stdpp Require Import gmap strings list fin_maps sorting.

(** ** JSON documents *)

Module Json.

(** What [response.json()] returns: [None], a [bool], an [int], a [float],
    a [str], a [list] or a [dict].  An object is kept as the list of its
    members in the order of the document. *)
#[warnings="-register-all"] Inductive value :=
| JNull
| JBool (b : bool)
| JInt (z : Z)
| JFloat (q : Q)
| JString (s : string)
| JArray (items : list value)
| JObject (members : list (string * value)).

(** The value the [dict] holds under a key: the last member of that name. *)
Fixpoint lookup (key : string) (members : list (string * value))
    : option value :=
  match members with
  | [] => None
  | (k, v) :: rest =>
      match lookup key rest with
      | Some v' => Some v'
      | None => if decide (k = key) then Some v else None
      end
  end.

(** The keys of the [dict], in the order of their first occurrence. *)
Fixpoint keys (members : list (string * value)) : list string :=
  match members with
  | [] => []
  | (k, _) :: rest => k :: filter (λ k', k' ≠ k) (keys rest)
  end.

End Json.

(** ** Python and SQL primitives *)

Module Py.

(** [b > a] on numbers. *)
Definition gt (b a : Q) : bool := negb (Qle_bool b a).

(** [a >= b] on numbers. *)
Definition ge (a b : Q) : bool := Qle_bool b a.

(** Truthiness of a number read from the store: [None] and zero are false. *)
Definition truthy (v : option Q) : bool :=
  match v with
  | Some x => negb (Qeq_bool x 0)
  | None => false
  end.

(** [v and v > bound] for a nullable number [v]. *)
Definition truthy_and_gt (v : option Q) (bound : Q) : bool :=
  match v with
  | Some x => truthy v && gt x bound
  | None => false
  end.

(** [v and v < bound]. *)
Definition truthy_and_lt (v : option Q) (bound : Q) : bool :=
  match v with
  | Some x => truthy v && gt bound x
  | None => false
  end.

(** [max(a, b)]: the first argument unless the second is greater. *)
Definition max (a b : Q) : Q := if gt b a then b else a.

(** [min(a, b)]: the first argument unless the second is smaller. *)
Definition min (a b : Q) : Q := if gt a b then b else a.

(** [sum(xs)]: a left fold from 0. *)
Definition sum (xs : list Q) : Q := foldl Qplus 0%Q xs.

(** [abs(x)]. *)
Definition abs (x : Q) : Q := if gt 0%Q x then (- x)%Q else x.

(** [xs[i] if i < len(xs) else None]. *)
Definition get_or_none (xs : list (option Q)) (i : nat) : option Q :=
  match xs !! i with
  | Some v => v
  | None => None
  end.

(** *** Calls that may raise *)

Inductive result (A : Type) : Type :=
| Returns (a : A)
| Raises
| NotModelled.
Arguments Returns {A} a.
Arguments Raises {A}.
Arguments NotModelled {A}.

(** A step, then the steps that need its value. *)
Definition and_then {A B} (r : result A) (f : A → result B) : result B :=
  match r with
  | Returns a => f a
  | Raises => Raises
  | NotModelled => NotModelled
  end.

Definition map_result {A B} (f : A → B) (r : result A) : result B :=
  and_then r (λ a, Returns (f a)).

(** Two steps of one transaction, neither of which needs the value of the
    other: the transaction raises as soon as one of them does. *)
Definition both {A B} (a : result A) (b : result B) : result (A * B) :=
  match a, b with
  | Raises, _ | _, Raises => Raises
  | NotModelled, _ | _, NotModelled => NotModelled
  | Returns x, Returns y => Returns (x, y)
  end.

Fixpoint all {A} (steps : list (result A)) : result (list A) :=
  match steps with
  | [] => Returns []
  | r :: rest => map_result (λ '(x, xs), x :: xs) (both r (all rest))
  end.

(** *** Decoded JSON *)

(** [key in s] for two strings: [key] occurs in [s]. *)
Fixpoint occurs_in (key s : string) : bool :=
  String.prefix key s
  || match s with
     | EmptyString => false
     | String _ s' => occurs_in key s'
     end.

(** [key in data]: a key of a [dict], an element of a [list], a part of a
    [str]; the other values are not iterable, [TypeError]. *)
Definition contains (key : string) (data : Json.value) : result bool :=
  match data with
  | Json.JObject members => Returns (bool_decide (key ∈ members.*1))
  | Json.JArray items =>
      Returns (existsb (λ v, match v with
                             | Json.JString s => bool_decide (s = key)
                             | _ => false
                             end) items)
  | Json.JString s => Returns (occurs_in key s)
  | Json.JNull | Json.JBool _ | Json.JInt _ | Json.JFloat _ => Raises
  end.

(** [data[key]] with a [str] key: the value of a [dict], [KeyError] without
    one; a [list] and a [str] take integer indices only, [TypeError]. *)
Definition getitem (data : Json.value) (key : string)
    : result Json.value :=
  match data with
  | Json.JObject members =>
      match Json.lookup key members with
      | Some v => Returns v
      | None => Raises
      end
  | _ => Raises
  end.

(** [section.get(key, otherwise)]: only a [dict] has the method,
    [AttributeError] on every other value. *)
Definition get (section : Json.value) (key : string)
    (otherwise : Json.value) : result Json.value :=
  match section with
  | Json.JObject members =>
      Returns (default otherwise (Json.lookup key members))
  | _ => Raises
  end.

(** The elements [enumerate(xs)] runs through: those of a [list], the
    characters of a [str], the keys of a [dict]; [TypeError] otherwise. *)
Definition iterate (xs : Json.value) : result (list Json.value) :=
  match xs with
  | Json.JArray items => Returns items
  | Json.JString s =>
      Returns ((λ a, Json.JString (String a EmptyString))
                 <$> String.list_ascii_of_string s)
  | Json.JObject members => Returns (Json.JString <$> Json.keys members)
  | Json.JNull | Json.JBool _ | Json.JInt _ | Json.JFloat _ => Raises
  end.

(** [xs[i] if i < len(xs) else None]: [len] raises [TypeError] on a value
    without a length, and an integer is never a key of a decoded object,
    [KeyError]. *)
Definition index_or_none (xs : Json.value) (i : nat)
    : result Json.value :=
  match xs with
  | Json.JArray items => Returns (default Json.JNull (items !! i))
  | Json.JString s =>
      Returns (match String.get i s with
               | Some a => Json.JString (String a EmptyString)
               | None => Json.JNull
               end)
  | Json.JObject members =>
      if decide (i < length (Json.keys members))%nat then Raises
      else Returns Json.JNull
  | Json.JNull | Json.JBool _ | Json.JInt _ | Json.JFloat _ => Raises
  end.

End Py.

Module Sql.

(** The non-NULL values of a column, in row order. *)
Definition non_null (col : list (option Q)) : list Q := omap id col.

(** [COUNT(col)]. *)
Definition count (col : list (option Q)) : nat := length (non_null col).

(** [SUM(col)]: NULL when no row has a value. *)
Definition sum (col : list (option Q)) : option Q :=
  match non_null col with
  | [] => None
  | xs => Some (foldl Qplus 0%Q xs)
  end.

(** [AVG(col)]: NULL when no row has a value. *)
Definition avg (col : list (option Q)) : option Q :=
  match non_null col with
  | [] => None
  | xs => Some (foldl Qplus 0%Q xs / inject_Z (Z.of_nat (length xs)))%Q
  end.

(** [MIN(col)] and [MAX(col)]: NULL when no row has a value. *)
Definition min (col : list (option Q)) : option Q :=
  match non_null col with
  | [] => None
  | x :: xs => Some (foldl Qmin x xs)
  end.

Definition max (col : list (option Q)) : option Q :=
  match non_null col with
  | [] => None
  | x :: xs => Some (foldl Qmax x xs)
  end.

(** [a - b]: NULL as soon as one operand is NULL. *)
Definition sub (a b : option Q) : option Q :=
  match a, b with
  | Some x, Some y => Some (x - y)%Q
  | _, _ => None
  end.

(** [(a + b) / 2], as the chart generator's query computes the average. *)
Definition mean2 (a b : option Q) : option Q :=
  match a, b with
  | Some x, Some y => Some ((x + y) / 2)%Q
  | _, _ => None
  end.

(** [a / b]: SQLite yields NULL on a zero divisor. *)
Definition div (a b : Q) : option Q :=
  if Qeq_bool b 0 then None else Some (a / b)%Q.

(** [ROUND(x, n)]: to [n] decimals, halves away from zero. *)
Definition round (x : Q) (n : nat) : Q :=
  let scale := inject_Z (10 ^ Z.of_nat n) in
  if Qle_bool 0 x
  then (inject_Z (Qfloor (x * scale + (1 # 2))) / scale)%Q
  else (- (inject_Z (Qfloor (- x * scale + (1 # 2))) / scale))%Q.

(** [WHERE v < lo OR v > hi]: a NULL value never satisfies it. *)
Definition out_of_range (lo hi : Q) (v : option Q) : bool :=
  match v with
  | Some x => Py.gt lo x || Py.gt x hi
  | None => false
  end.

(** [WHERE v > 0]. *)
Definition positive (v : option Q) : bool :=
  match v with
  | Some x => Py.gt x 0%Q
  | None => false
  end.

(** Byte-wise order of TEXT values (the BINARY collation). *)
Definition text_le (a b : string) : Prop := String.leb a b = true.

#[global] Instance text_le_dec : RelDecision text_le :=
  λ a b, decide (String.leb a b = true).

(** The keys of [GROUP BY key], one per group, in ascending order. *)
Definition group_keys (keys : list string) : list string :=
  merge_sort text_le (remove_dups keys).

(** *** Binding the parameters of a statement *)

(** The integers sqlite3 binds: those of 64 bits; [OverflowError] beyond. *)
Definition fits_int64 (z : Z) : bool :=
  ((- 2 ^ 63 <=? z) && (z <? 2 ^ 63))%Z.

(** A parameter for a [REAL] or an [INTEGER] column.  [None], numbers and
    booleans (integers to Python) are bound; a [list] or a [dict] is no
    type sqlite3 supports, and binding it raises; a [str] is bound as it
    is and stored as a text. *)
Definition bind_number (v : Json.value) : Py.result (option Q) :=
  match v with
  | Json.JNull => Py.Returns None
  | Json.JBool b => Py.Returns (Some (if b then 1 else 0)%Q)
  | Json.JInt z =>
      if fits_int64 z then Py.Returns (Some (inject_Z z)) else Py.Raises
  | Json.JFloat q => Py.Returns (Some q)
  | Json.JString _ => Py.NotModelled
  | Json.JArray _ | Json.JObject _ => Py.Raises
  end.

(** A parameter for the [hour TEXT] column, which holds the strings of
    the [time] array. *)
Definition bind_text (v : Json.value) : Py.result string :=
  match v with
  | Json.JString s => Py.Returns s
  | Json.JNull | Json.JBool _ | Json.JFloat _ => Py.NotModelled
  | Json.JInt z => if fits_int64 z then Py.NotModelled else Py.Raises
  | Json.JArray _ | Json.JObject _ => Py.Raises
  end.

(** The code of a character is that of a digit, of a sign. *)
Definition digit (n : nat) : bool := ((48 <=? n) && (n <=? 57))%nat.

Definition sign (n : nat) : bool := bool_decide (n ∈ [43; 45]%nat).

(** The characters a numeric literal and the blanks around it are made
    of: the digits, the signs, the point, [e] and [E], the space and the
    control characters 9 to 13. *)
Definition numeric_char (n : nat) : bool :=
  digit n || sign n
  || bool_decide (n ∈ [46; 69; 101; 32; 9; 10; 11; 12; 13]%nat).

(** A sign right behind a digit, which no numeric literal has. *)
Fixpoint sign_behind_digit (codes : list nat) : bool :=
  match codes with
  | a :: (b :: _) as rest => (digit a && sign b) || sign_behind_digit rest
  | _ => false
  end.

(** A text that SQLite cannot read as a number: it holds a character that
    no numeric literal holds, or a sign right behind a digit, as the dates
    [YYYY-MM-DD] do. *)
Definition surely_text (s : string) : bool :=
  let codes := Ascii.nat_of_ascii <$> String.list_ascii_of_string s in
  existsb (λ n, negb (numeric_char n)) codes || sign_behind_digit codes.

(** A parameter for the [date DATE] column.  The column has numeric
    affinity: a text that reads as a number is stored as that number. *)
Definition bind_date (v : Json.value) : Py.result string :=
  Py.and_then (bind_text v)
    (λ s, if surely_text s then Py.Returns s else Py.NotModelled).

End Sql.

(** ** The store: three tables *)

Module Store.

(** [weather_current]: [city TEXT UNIQUE]. *)
Record current_row := CurrentRow {
  cur_id : Z;
  cur_city : string;
  cur_temperature : option Q;
  cur_humidity : option Q;
  cur_wind_speed : option Q;
  cur_collected_at : string
}.

(** [weather_daily]: no uniqueness constraint. *)
Record daily_row := DailyRow {
  day_id : Z;
  day_city : string;
  day_date : string;
  day_temp_max : option Q;
  day_temp_min : option Q;
  day_precipitation : option Q;
  day_collected_at : string
}.

(** [weather_hourly]: no uniqueness constraint. *)
Record hourly_row := HourlyRow {
  hour_id : Z;
  hour_city : string;
  hour_hour : string;
  hour_temperature : option Q;
  hour_collected_at : string
}.

Record db := Db {
  weather_current : list current_row;
  weather_daily : list daily_row;
  weather_hourly : list hourly_row
}.

(** The database right after [CREATE TABLE IF NOT EXISTS] on a new file. *)
Definition empty_db : db := Db [] [] [].

(** The rowid SQLite gives a row inserted without one: one more than the
    largest rowid in the table. *)
Definition next_id {A} (id : A → Z) (rows : list A) : Z :=
  (1 + foldr Z.max 0 (id <$> rows))%Z.

(** [INSERT OR REPLACE INTO weather_current]: the row that holds the same
    city, if any, is deleted and the new row is inserted. *)
Definition insert_or_replace_current (t : list current_row)
    (city : string) (temperature humidity wind_speed : option Q)
    (collected_at : string) : list current_row :=
  filter (λ r, cur_city r ≠ city) t
  ++ [CurrentRow (next_id cur_id t) city temperature humidity wind_speed
        collected_at].

(** [INSERT INTO weather_daily]. *)
Definition insert_daily (t : list daily_row) (city date : string)
    (temp_max temp_min precipitation : option Q) (collected_at : string)
    : list daily_row :=
  t ++ [DailyRow (next_id day_id t) city date temp_max temp_min
          precipitation collected_at].

(** [INSERT INTO weather_hourly]. *)
Definition insert_hourly (t : list hourly_row) (city hour : string)
    (temperature : option Q) (collected_at : string) : list hourly_row :=
  t ++ [HourlyRow (next_id hour_id t) city hour temperature collected_at].

(** The database files on disk, by path. *)
Abbreviation files := (gmap string db).

(** [weather_current] holds at most one row per city. *)
Definition one_row_per_city (d : db) : Prop :=
  NoDup (cur_city <$> weather_current d).

End Store.

Import Store.

(** ** data_collector.py *)

Module DataCollector.

Record city_record := City { name : string; lat : Q; lon : Q }.

(** What [_save_to_db] reads out of the body of a response and binds to
    its statements: the three values of the [current] section, and for the
    [daily] and the [hourly] section the strings of [time] with the values
    that stand at their indices. *)
Record current_obj := CurrentObj {
  temperature_2m : option Q;
  relative_humidity_2m : option Q;
  wind_speed_10m : option Q
}.

Record daily_obj := DailyObj {
  daily_time : list string;
  temperature_2m_max : list (option Q);
  temperature_2m_min : list (option Q);
  precipitation_sum : list (option Q)
}.

Record hourly_obj := HourlyObj {
  hourly_time : list string;
  hourly_temperature_2m : list (option Q)
}.

Record api_data := ApiData {
  current : option current_obj;
  daily : option daily_obj;
  hourly : option hourly_obj
}.

(** An item of [collected_data] as [_save_to_db] reads it. *)
Record payload := Payload {
  city : string;
  data : api_data;
  collected_at : string
}.

(** What [fetch_city_weather] returns on success: the name of the city,
    the decoded body as it came and the time of the answer. *)
Record fetched := Fetched {
  fetched_city : string;
  fetched_data : Json.value;
  fetched_at : string
}.

Record t := Collector {
  base_url : string;
  forecast_days : Z;
  db_path : string
}.

(** [_init_db]: creates the three tables unless they exist.  The directory
    of the path is taken to exist, as [main.py] sees to. *)
Definition _init_db (self : t) (fs : files) : files :=
  <[db_path self := default empty_db (fs !! db_path self)]> fs.

(** [__init__(self, forecast_days=10)]. *)
Definition __init__ (forecast_days : option Z) (fs : files) : t * files :=
  let self :=
    Collector "https://api.open-meteo.com/v1/forecast"
      (Z.min (Z.max (default 10%Z forecast_days) 1) 16)
      "data/weather_data.db" in
  (self, _init_db self fs).

(** *** The network *)

Record request := Request {
  req_url : string;
  req_latitude : Q;
  req_longitude : Q;
  req_forecast_days : Z;
  req_timeout : Z
}.

(** What one GET ends in: a response with its status and its body (no body
    when it does not decode as JSON), or an exception (connection error,
    timeout). *)
Inductive outcome :=
| Response (status : Z) (json : option Json.value)
| Failed.

(** The outside world: the answer to the [n]-th request issued, and the
    clock read when it is answered. *)
Record env := Env {
  serve : nat → request → outcome;
  now : nat → string
}.

(** [fetch_city_weather]; the state threaded through is the log of the
    requests issued so far. *)
Definition fetch_city_weather (self : t) (e : env) (c : city_record)
    (log : list request) : option fetched * list request :=
  let req := Request (base_url self) (lat c) (lon c) (forecast_days self) 10 in
  let n := length log in
  let log' := log ++ [req] in
  match serve e n req with
  | Response status json =>
      if (status =? 200)%Z then
        match json with
        | Some body => (Some (Fetched (name c) body (now e n)), log')
        | None => (None, log')
        end
      else (None, log')
  | Failed => (None, log')
  end.

(** [asyncio.gather] over one task per city: the results come back in the
    order of the cities. *)
Fixpoint gather (self : t) (e : env) (cities : list city_record)
    (log : list request) : list (option fetched) * list request :=
  match cities with
  | [] => ([], log)
  | c :: cs =>
      let '(r, log1) := fetch_city_weather self e c log in
      let '(rs, log2) := gather self e cs log1 in
      (r :: rs, log2)
  end.

(** *** Reading the body *)

(** [if key in data: section = data[key]; ...]. *)
Definition section {A} (key : string) (read : Json.value → Py.result A)
    (data : Json.value) : Py.result (option A) :=
  Py.and_then (Py.contains key data) (λ present,
    if present : bool
    then Py.and_then (Py.getitem data key) (λ v, Py.map_result Some (read v))
    else Py.Returns None).

(** [xs[i] if i < len(xs) else None], bound to a numeric column. *)
Definition number_at (xs : Json.value) (i : nat) : Py.result (option Q) :=
  Py.and_then (Py.index_or_none xs i) Sql.bind_number.

(** The parameters of the statement on [weather_current]. *)
Definition read_current (current : Json.value) : Py.result current_obj :=
  Py.and_then (Py.get current "temperature_2m" Json.JNull) (λ temperature,
  Py.and_then (Py.get current "relative_humidity_2m" Json.JNull) (λ humidity,
  Py.and_then (Py.get current "wind_speed_10m" Json.JNull) (λ wind_speed,
  Py.map_result (λ '(t, (h, w)), CurrentObj t h w)
    (Py.both (Sql.bind_number temperature)
       (Py.both (Sql.bind_number humidity)
          (Sql.bind_number wind_speed)))))).

(** The parameters of the statements on [weather_daily], one statement per
    element of [times]. *)
Definition read_daily (daily : Json.value) : Py.result daily_obj :=
  Py.and_then (Py.get daily "time" (Json.JArray [])) (λ times,
  Py.and_then (Py.get daily "temperature_2m_max" (Json.JArray []))
    (λ max_temps,
  Py.and_then (Py.get daily "temperature_2m_min" (Json.JArray []))
    (λ min_temps,
  Py.and_then (Py.get daily "precipitation_sum" (Json.JArray []))
    (λ precips,
  Py.and_then (Py.iterate times) (λ dates,
  Py.map_result
    (λ rows, DailyObj (rows.*1) (rows.*2.*1) (rows.*2.*2.*1) (rows.*2.*2.*2))
    (Py.all
       (imap (λ i date,
                Py.both (Sql.bind_date date)
                  (Py.both (number_at max_temps i)
                     (Py.both (number_at min_temps i)
                        (number_at precips i))))
          dates))))))).

(** The parameters of the statements on [weather_hourly]. *)
Definition read_hourly (hourly : Json.value) : Py.result hourly_obj :=
  Py.and_then (Py.get hourly "time" (Json.JArray [])) (λ times,
  Py.and_then (Py.get hourly "temperature_2m" (Json.JArray [])) (λ temps,
  Py.and_then (Py.iterate times) (λ hours,
  Py.map_result (λ rows, HourlyObj (rows.*1) (rows.*2))
    (Py.all
       (imap (λ i hour, Py.both (Sql.bind_text hour) (number_at temps i))
          hours))))).

(** All the parameters one item gives rise to. *)
Definition read_item (item : fetched) : Py.result payload :=
  let data := fetched_data item in
  Py.map_result
    (λ '(current, (daily, hourly)),
       Payload (fetched_city item) (ApiData current daily hourly)
         (fetched_at item))
    (Py.both (section "current" read_current data)
       (Py.both (section "daily" read_daily data)
          (section "hourly" read_hourly data))).

(** *** Writing the rows *)

Definition save_current (conn : db) (city : string) (cur : current_obj)
    (collected_at : string) : db :=
  Db (insert_or_replace_current (weather_current conn) city
        (temperature_2m cur) (relative_humidity_2m cur) (wind_speed_10m cur)
        collected_at)
     (weather_daily conn) (weather_hourly conn).

(** [for i, date in enumerate(times)] over the daily arrays. *)
Definition save_daily (conn : db) (city : string) (dl : daily_obj)
    (collected_at : string) : db :=
  Db (weather_current conn)
     (foldl (λ t '(i, date),
               insert_daily t city date
                 (Py.get_or_none (temperature_2m_max dl) i)
                 (Py.get_or_none (temperature_2m_min dl) i)
                 (Py.get_or_none (precipitation_sum dl) i)
                 collected_at)
            (weather_daily conn) (imap pair (daily_time dl)))
     (weather_hourly conn).

(** [for i, hour in enumerate(times)] over the hourly arrays. *)
Definition save_hourly (conn : db) (city : string) (hl : hourly_obj)
    (collected_at : string) : db :=
  Db (weather_current conn) (weather_daily conn)
     (foldl (λ t '(i, hour),
               insert_hourly t city hour
                 (Py.get_or_none (hourly_temperature_2m hl) i)
                 collected_at)
            (weather_hourly conn) (imap pair (hourly_time hl))).

(** The statements of the body of [for item in collected_data]. *)
Definition save_item (conn : db) (item : payload) : db :=
  let conn1 :=
    match current (data item) with
    | Some cur => save_current conn (city item) cur (collected_at item)
    | None => conn
    end in
  let conn2 :=
    match daily (data item) with
    | Some dl => save_daily conn1 (city item) dl (collected_at item)
    | None => conn1
    end in
  match hourly (data item) with
  | Some hl => save_hourly conn2 (city item) hl (collected_at item)
  | None => conn2
  end.

(** [_save_to_db]: one transaction, committed when every statement of
    every item went through and rolled back when one raised.  Without the
    tables at the path (the file was removed after the constructor ran) an
    insert raises too, and a call without inserts leaves a file without
    tables. *)
Definition _save_to_db (self : t) (collected_data : list fetched)
    (fs : files) : Py.result files :=
  let items := Py.all (read_item <$> collected_data) in
  match fs !! db_path self with
  | Some conn =>
      Py.map_result (λ items, <[db_path self := foldl save_item conn items]> fs)
        items
  | None => Py.and_then items (λ _, Py.NotModelled)
  end.

(** [collect_batch]: the items returned, the files afterwards and the
    requests issued. *)
Definition collect_batch (self : t) (e : env) (cities : list city_record)
    (fs : files) : Py.result (list fetched * files * list request) :=
  let '(results, log) := gather self e cities [] in
  let collected := omap id results in
  Py.map_result (λ fs', (collected, fs', log))
    (_save_to_db self collected fs).

(** One collection run, as [main.py] and the module's own entry point
    perform it: construct the collector, then collect the batch. *)
Definition collection_run (days : option Z) (e : env)
    (cities : list city_record) (fs : files)
    : Py.result (list fetched * files * list request) :=
  let '(collector, fs1) := __init__ days fs in
  collect_batch collector e cities fs1.

(** The files a sequence of collection runs can leave, starting with no
    database on disk.  A run that raises leaves what its constructor
    left, which is also what a run over no city leaves. *)
Inductive reachable : files → Prop :=
| reachable_fresh : reachable ∅
| reachable_run fs days e cities collected fs' log :
    reachable fs →
    collection_run days e cities fs = Py.Returns (collected, fs', log) →
    reachable fs'.

End DataCollector.

(** ** data_analyzer.py *)

Module DataAnalyzer.

Record t := Analyzer { db_path : string }.

(** [__init__(self, db_path='data/weather_data.db')]. *)
Definition __init__ (db_path : option string) : t :=
  Analyzer (default "data/weather_data.db" db_path).

(** [ORDER BY city, date], on cities and dates that are texts.  The order
    in which rows tied on both come back is left open by SQL; the
    properties below are about rows that differ in one of the two. *)
Definition by_city_date (a b : daily_row) : Prop :=
  String.ltb (day_city a) (day_city b) = true
  ∨ (day_city a = day_city b ∧ String.leb (day_date a) (day_date b) = true).

#[global] Instance by_city_date_dec : RelDecision by_city_date.
Proof. intros a b. unfold by_city_date. apply _. Defined.

Record trend_entry := Trend {
  date : string;
  max : option Q;
  min : option Q;
  avg : option Q
}.

(** [(max_t + min_t) / 2 if max_t and min_t else None]. *)
Definition avg_t (max_t min_t : option Q) : option Q :=
  if Py.truthy max_t && Py.truthy min_t then
    match max_t, min_t with
    | Some x, Some y => Some ((x + y) / 2)%Q
    | _, _ => None
    end
  else None.

Definition trend_of_row (r : daily_row) : trend_entry :=
  Trend (day_date r) (day_temp_max r) (day_temp_min r)
    (avg_t (day_temp_max r) (day_temp_min r)).

(** One turn of the loop: [if city not in trends: trends[city] = []], then
    [trends[city].append(entry)]. *)
Definition trends_step (trends : gmap string (list trend_entry))
    (r : daily_row) : gmap string (list trend_entry) :=
  let trends1 :=
    match trends !! day_city r with
    | None => <[day_city r := []]> trends
    | Some _ => trends
    end in
  <[day_city r := default [] (trends1 !! day_city r) ++ [trend_of_row r]]>
    trends1.

(** [analyze_temperature_trends]. *)
Definition analyze_temperature_trends (self : t) (fs : files)
    : option (gmap string (list trend_entry)) :=
  conn ← fs !! db_path self;
  Some (foldl trends_step ∅ (merge_sort by_city_date (weather_daily conn))).

(** The text of an insight, with the values it is formatted from. *)
Inductive message_text :=
| HighAverageMax (avg_max : Q)
| SevereFrost (min_temp : Q)
| HeavyPrecipitation (total_precip : Q) (rainy_days : nat)
| ClimateDeviation (city deviation : string).

Record insight := Insight {
  type : string;
  city : string;
  severity : string;
  message : message_text;
  recommendation : string
}.

(** The rows of each city, for [GROUP BY city]. *)
Definition group_by_city (rows : list daily_row)
    : list (string * list daily_row) :=
  (λ c, (c, filter (λ r, day_city r = c) rows))
    <$> Sql.group_keys (day_city <$> rows).

(** [SELECT city, AVG(temp_max), MIN(temp_min) ... GROUP BY city]. *)
Definition temperature_stats (rows : list daily_row)
    : list (string * option Q * option Q) :=
  (λ '(c, g), (c, Sql.avg (day_temp_max <$> g), Sql.min (day_temp_min <$> g)))
    <$> group_by_city rows.

(** [SELECT city, SUM(precipitation), COUNT( * ) ... WHERE precipitation > 0
    GROUP BY city]. *)
Definition precipitation_stats (rows : list daily_row)
    : list (string * option Q * nat) :=
  (λ '(c, g), (c, Sql.sum (day_precipitation <$> g), length g))
    <$> group_by_city (filter (λ r, Sql.positive (day_precipitation r) = true) rows).

(** The first loop: heat and cold. *)
Definition temperature_insights (row : string * option Q * option Q)
    : list insight :=
  let '(c, avg_max, min_temp) := row in
  (match avg_max with
   | Some v =>
       if Py.truthy_and_gt avg_max 25
       then [Insight "temperature" c "HIGH" (HighAverageMax v)
               "Подготовить системы охлаждения"]
       else []
   | None => []
   end)
  ++
  (match min_temp with
   | Some v =>
       if Py.truthy_and_lt min_temp (-10)
       then [Insight "temperature" c "HIGH" (SevereFrost v)
               "Обеспечить готовность систем отопления"]
       else []
   | None => []
   end).

(** The second loop: precipitation. *)
Definition precipitation_insights (row : string * option Q * nat)
    : list insight :=
  let '(c, total_precip, rainy_days) := row in
  match total_precip with
  | Some v =>
      if Py.truthy_and_gt total_precip 50
      then [Insight "precipitation" c "MEDIUM" (HeavyPrecipitation v rainy_days)
              "Мониторить риски наводнений"]
      else []
  | None => []
  end.

(** The third block: comparison with the average over the cities. *)
Definition comparison_insights (cities_data : list (string * option Q))
    : list insight :=
  let temps := omap (λ t, if Py.truthy t.2 then t.2 else None) cities_data in
  match temps with
  | [] => []
  | _ =>
      let avg_global := (Py.sum temps / inject_Z (Z.of_nat (length temps)))%Q in
      mjoin ((λ '(c, city_temp),
                match city_temp with
                | Some v =>
                    if Py.truthy city_temp && Py.gt (Py.abs (v - avg_global)) 10
                    then [Insight "climate_comparison" c "LOW"
                            (ClimateDeviation c
                               (if Py.gt v avg_global then "теплее" else "холоднее"))
                            "Отслеживать сезонные изменения"]
                    else []
                | None => []
                end) <$> cities_data)
  end.

(** [generate_insights]. *)
Definition generate_insights (self : t) (fs : files) : option (list insight) :=
  conn ← fs !! db_path self;
  let rows := weather_daily conn in
  Some (mjoin (temperature_insights <$> temperature_stats rows)
        ++ mjoin (precipitation_insights <$> precipitation_stats rows)
        ++ comparison_insights ((λ r, (r.1.1, r.1.2)) <$> temperature_stats rows)).

End DataAnalyzer.

(** ** data_visualizer.py and chart_generator.py: the constructors *)

Module DataVisualizer.

Record t := Visualizer { db_path : string }.

(** [__init__(self, db_path='data/weather_data.db')]. *)
Definition __init__ (db_path : option string) : t :=
  Visualizer (default "data/weather_data.db" db_path).

End DataVisualizer.

Module TemperatureChartGenerator.

Record t := ChartGenerator { db_path : string }.

(** [__init__(self, db_path='data/weather_data.db')]. *)
Definition __init__ (db_path : option string) : t :=
  ChartGenerator (default "data/weather_data.db" db_path).

End TemperatureChartGenerator.

(** ** data_quality.py *)

Module DataQuality.

Record t := Quality { db_path : string }.

(** [__init__(self, db_path='data/weather_data.db')]. *)
Definition __init__ (db_path : option string) : t :=
  Quality (default "data/weather_data.db" db_path).

(** The rows of each city, for [GROUP BY city] over [weather_current]. *)
Definition group_by_city (rows : list current_row)
    : list (string * list current_row) :=
  (λ c, (c, filter (λ r, cur_city r = c) rows))
    <$> Sql.group_keys (cur_city <$> rows).

(** *** check_completeness *)

(** A row of the completeness query. *)
Record completeness_row := CompletenessRow {
  q_city : string;
  q_total : nat;
  q_temp_filled : nat;
  q_humid_filled : nat;
  q_wind_filled : nat;
  q_completeness_percent : option Q
}.

(** The aggregates of one group:
    [city, COUNT( * ), COUNT(temperature), COUNT(humidity),
     COUNT(wind_speed), ROUND(COUNT(temperature)*100.0/COUNT( * ), 1)]. *)
Definition completeness_of_group (c : string) (g : list current_row)
    : completeness_row :=
  let total := length g in
  let temp_filled := Sql.count (cur_temperature <$> g) in
  CompletenessRow c total temp_filled
    (Sql.count (cur_humidity <$> g))
    (Sql.count (cur_wind_speed <$> g))
    ((λ x, Sql.round x 1)
       <$> Sql.div (inject_Z (Z.of_nat temp_filled) * 100)
                   (inject_Z (Z.of_nat total))).

(** [SELECT ... FROM weather_current GROUP BY city]. *)
Definition completeness_query (rows : list current_row)
    : list completeness_row :=
  (λ '(c, g), completeness_of_group c g) <$> group_by_city rows.

Record completeness_entry := CompletenessEntry {
  total_records : nat;
  temperature_filled : nat;
  humidity_filled : nat;
  wind_filled : nat;
  completeness_percent : Q
}.

(** A line of the log: the status, the city and the percentage. *)
Record status_line := StatusLine {
  status : string;
  status_city : string;
  status_percent : Q
}.

(** The loop over the rows of the query.  [completeness >= 95] raises on a
    NULL percentage. *)
Fixpoint completeness_loop (rows : list completeness_row)
    (results : gmap string completeness_entry) (log : list status_line)
    : option (gmap string completeness_entry * list status_line) :=
  match rows with
  | [] => Some (results, log)
  | row :: rest =>
      completeness ← q_completeness_percent row;
      let results' :=
        <[q_city row :=
            CompletenessEntry (q_total row) (q_temp_filled row)
              (q_humid_filled row) (q_wind_filled row) completeness]>
          results in
      let status := if Py.ge completeness 95 then "OK" else "ВНИМАНИЕ" in
      completeness_loop rest results'
        (log ++ [StatusLine status (q_city row) completeness])
  end.

(** [check_completeness]: the dictionary returned and the lines logged. *)
Definition check_completeness (self : t) (fs : files)
    : option (gmap string completeness_entry * list status_line) :=
  conn ← fs !! db_path self;
  completeness_loop (completeness_query (weather_current conn)) ∅ [].

(** *** check_outliers *)

(** A row of the outlier query. *)
Record outlier_row := OutlierRow {
  o_city : string;
  o_records : nat;
  o_avg_temp : option Q;
  o_min_temp : option Q;
  o_max_temp : option Q;
  o_temp_range : option Q
}.

(** The aggregates of one group:
    [city, COUNT( * ), AVG(temperature), MIN(temperature),
     MAX(temperature), (MAX(temperature) - MIN(temperature))]. *)
Definition outlier_of_group (c : string) (g : list current_row)
    : outlier_row :=
  let temps := cur_temperature <$> g in
  OutlierRow c (length g) (Sql.avg temps) (Sql.min temps) (Sql.max temps)
    (Sql.sub (Sql.max temps) (Sql.min temps)).

(** [SELECT ... FROM weather_current GROUP BY city]. *)
Definition outlier_query (rows : list current_row) : list outlier_row :=
  (λ '(c, g), outlier_of_group c g) <$> group_by_city rows.

(** An outlier; its message is formatted from [value]. *)
Record outlier := Outlier {
  type : string;
  value : Q
}.

Record anomaly_entry := AnomalyEntry {
  records : nat;
  avg_temp : option Q;
  min_temp : option Q;
  max_temp : option Q;
  range : option Q;
  anomalies : list outlier;
  has_issues : bool
}.

(** The three tests of the loop body, in the order of the source. *)
Definition outliers_of (row : outlier_row) : list outlier :=
  (match o_temp_range row with
   | Some v => if Py.truthy_and_gt (o_temp_range row) 40
               then [Outlier "extreme_range" v] else []
   | None => []
   end)
  ++
  (match o_min_temp row with
   | Some v => if Py.truthy_and_lt (o_min_temp row) (-60)
               then [Outlier "extreme_cold" v] else []
   | None => []
   end)
  ++
  (match o_max_temp row with
   | Some v => if Py.truthy_and_gt (o_max_temp row) 60
               then [Outlier "extreme_heat" v] else []
   | None => []
   end).

Definition anomaly_of (row : outlier_row) : anomaly_entry :=
  let outliers := outliers_of row in
  AnomalyEntry (o_records row) (o_avg_temp row) (o_min_temp row)
    (o_max_temp row) (o_temp_range row) outliers
    (bool_decide (0 < length outliers)).

(** [check_outliers]. *)
Definition check_outliers (self : t) (fs : files)
    : option (gmap string anomaly_entry) :=
  conn ← fs !! db_path self;
  Some (foldl (λ anomalies row, <[o_city row := anomaly_of row]> anomalies)
          ∅ (outlier_query (weather_current conn))).

(** *** check_validity *)

(** The [validity] table of acceptable ranges. *)
Record bounds := Bounds { lo : Q; hi : Q }.
Record validity_table := ValidityTable {
  v_temperature : bounds;
  v_humidity : bounds;
  v_wind_speed : bounds
}.

Definition validity : validity_table :=
  ValidityTable (Bounds (-50) 50) (Bounds 0 100) (Bounds 0 50).

(** [SELECT city, COUNT( * ) FROM weather_current WHERE ...] with no
    [GROUP BY]: an aggregate over all the matching rows, so the result is ONE
    row.  SQLite evaluates the bare column [city] on an arbitrarily chosen
    matching row, [choice] says which, and on NULL when no row matches. *)
Definition ungrouped_count (choice : list current_row → nat)
    (matching : list current_row) : list (option string * nat) :=
  [(cur_city <$> matching !! (choice matching `mod` length matching),
    length matching)].

(** A problem reported for a city, with the count it is formatted from. *)
Inductive issue :=
| InvalidTemperature (invalid : nat)
| InvalidHumidity (invalid : nat).

(** One turn of either loop: [if city not in issues: issues[city] = []],
    then [if invalid > 0: issues[city].append(...)]. *)
Definition issues_step (mk : nat → issue)
    (issues : gmap (option string) (list issue))
    (row : option string * nat) : gmap (option string) (list issue) :=
  let '(c, invalid) := row in
  let issues1 :=
    match issues !! c with
    | None => <[c := []]> issues
    | Some _ => issues
    end in
  if bool_decide (0 < invalid)
  then <[c := default [] (issues1 !! c) ++ [mk invalid]]> issues1
  else issues1.

(** [issues if issues else 'Проблемы не найдены']. *)
Inductive validity_check :=
| Issues (issues : gmap (option string) (list issue))
| NoProblemsFound.

(** [check_validity]. *)
Definition check_validity (self : t) (choice : list current_row → nat)
    (fs : files) : option validity_check :=
  conn ← fs !! db_path self;
  let rows := weather_current conn in
  let issues1 :=
    foldl (issues_step InvalidTemperature) ∅
      (ungrouped_count choice
         (filter (λ r, Sql.out_of_range (lo (v_temperature validity))
                         (hi (v_temperature validity)) (cur_temperature r) = true)
                 rows)) in
  let issues2 :=
    foldl (issues_step InvalidHumidity) issues1
      (ungrouped_count choice
         (filter (λ r, Sql.out_of_range (lo (v_humidity validity))
                         (hi (v_humidity validity)) (cur_humidity r) = true)
                 rows)) in
  Some (if decide (issues2 = ∅) then NoProblemsFound else Issues issues2).

(** *** generate_quality_report *)

Record metrics := Metrics {
  avg_completeness : Q;
  total_anomalies : nat;
  cities_analyzed : nat
}.

Record report := Report {
  report_date : string;
  r_completeness : gmap string completeness_entry;
  r_anomalies : gmap string anomaly_entry;
  r_validity : validity_check;
  quality_score : Q;
  r_metrics : metrics
}.

(** [generate_quality_report]; [now] is the clock reading. *)
Definition generate_quality_report (self : t)
    (choice : list current_row → nat) (now : string) (fs : files)
    : option report :=
  '(completeness, _) ← check_completeness self fs;
  found ← check_outliers self fs;
  checked ← check_validity self choice fs;
  let completeness_scores :=
    (λ c, completeness_percent c.2) <$> map_to_list completeness in
  let avg_completeness :=
    match completeness_scores with
    | [] => 0%Q
    | _ => (Py.sum completeness_scores
            / inject_Z (Z.of_nat (length completeness_scores)))%Q
    end in
  let anomaly_count :=
    sum_list ((λ a, length (anomalies a.2)) <$> map_to_list found) in
  let quality_score :=
    (avg_completeness - inject_Z (Z.of_nat anomaly_count * 2))%Q in
  let quality_score := Py.max 0 (Py.min 100 quality_score) in
  Some (Report now completeness found checked quality_score
          (Metrics avg_completeness anomaly_count (size completeness))).

End DataQuality.

(** ** Vocabulary of the statements *)

Module Spec.
Import DataQuality.
Local Open Scope Q_scope.

(** The entry and the log line the loop derives from a row of the query. *)
Definition entry_of_row (row : completeness_row) (e : completeness_entry)
    : Prop :=
  total_records e = q_total row
  ∧ temperature_filled e = q_temp_filled row
  ∧ humidity_filled e = q_humid_filled row
  ∧ wind_filled e = q_wind_filled row
  ∧ q_completeness_percent row = Some (completeness_percent e).

Definition line_of_row (row : completeness_row) (line : status_line)
    : Prop :=
  status_city line = q_city row
  ∧ q_completeness_percent row = Some (status_percent line)
  ∧ status line =
      if Py.ge (status_percent line) 95 then "OK" else "ВНИМАНИЕ".

(** [p] is [x] rounded to one decimal, a half going up: the multiple of a
    tenth that lies in the interval of length a tenth ending at
    [x + 1/20]. *)
Definition rounded_to_one_decimal (x p : Q) : Prop :=
  (∃ k : Z, p == inject_Z k / 10) ∧ x - (1 # 20) < p ∧ p <= x + (1 # 20).

(** The average of the spec: the sum of the values over their number. *)
Definition mean (xs : list Q) : Q :=
  foldr Qplus 0 xs / inject_Z (Z.of_nat (length xs)).

(** Clamping into [[lo, hi]]. *)
Definition clamp (lo hi x : Q) : Q :=
  if Qlt_le_dec x lo then lo else if Qlt_le_dec hi x then hi else x.

(** The score of the spec: the average completeness minus two points per
    outlier, clamped into [[0, 100]]. *)
Definition score (percents : list Q) (outliers : nat) : Q :=
  clamp 0 100 (mean percents - 2 * inject_Z (Z.of_nat outliers)).

(** The request the collector sends for a city. *)
Definition request_of (self : DataCollector.t) (c : DataCollector.city_record)
    : DataCollector.request :=
  DataCollector.Request (DataCollector.base_url self) (DataCollector.lat c)
    (DataCollector.lon c) (DataCollector.forecast_days self) 10.

(** A city is successfully collected by the [i]-th request of a batch when
    the request is answered with status 200 and a body that decodes; its
    payload is then the name of the city, the body and the time of the
    answer. *)
Definition collected_payload (self : DataCollector.t) (e : DataCollector.env)
    (i : nat) (c : DataCollector.city_record) : option DataCollector.fetched :=
  match DataCollector.serve e i (request_of self c) with
  | DataCollector.Response status (Some body) =>
      if (status =? 200)%Z
      then Some (DataCollector.Fetched (DataCollector.name c) body
                   (DataCollector.now e i))
      else None
  | _ => None
  end.

(** The store takes the items: [_save_to_db] reads every one of them
    without raising, as the parameters [stored]. *)
Definition store_takes (collected : list DataCollector.fetched)
    (stored : list DataCollector.payload) : Prop :=
  Forall2 (λ item p, DataCollector.read_item item = Py.Returns p)
    collected stored.

(** The number of daily and of hourly entries a payload carries. *)
Definition daily_entries (p : DataCollector.payload) : nat :=
  match DataCollector.daily (DataCollector.data p) with
  | Some dl => length (DataCollector.daily_time dl)
  | None => 0
  end.

Definition hourly_entries (p : DataCollector.payload) : nat :=
  match DataCollector.hourly (DataCollector.data p) with
  | Some hl => length (DataCollector.hourly_time hl)
  | None => 0
  end.

End Spec.

(** ** Concrete stores and runs used in the examples below *)

Module Scenario.
Import DataCollector Json.
Local Open Scope Q_scope.

Definition default_path : string := "data/weather_data.db".

Definition omsk : city_record := City "Omsk" (549885 # 10000) (733242 # 10000).
Definition sochi : city_record := City "Sochi" (436028 # 10000) (397314 # 10000).

(** Every request is answered with status 200 and the same body. *)
Definition always (body : Json.value) : env :=
  Env (λ _ _, Response 200 (Some body)) (λ _, "2024-07-01T12:00:00").

(** No request gets through. *)
Definition offline : env :=
  Env (λ _ _, Failed) (λ _, "2024-07-02T12:00:00").

(** The first request is answered with status 500, the second one raises,
    the third one succeeds. *)
Definition flaky (body : Json.value) : env :=
  Env (λ n _, match n with
              | O => Response 500 None
              | S O => Failed
              | _ => Response 200 (Some body)
              end)
      (λ _, "2024-07-03T12:00:00").

(** The files a run leaves, or no file when it raises. *)
Definition files_after (e : env) (cities : list city_record) (fs : files)
    : files :=
  match collection_run None e cities fs with
  | Py.Returns (_, fs', _) => fs'
  | _ => ∅
  end.

(** The files right after the collector is constructed on an empty disk. *)
Definition fresh_files : files := (__init__ None ∅).2.

(** Three summer days: maxima 30, 28, 32 and minima 20, 19, 21. *)
Definition summer : Json.value :=
  JObject
    [("current",
      JObject [("temperature_2m", JFloat 27); ("relative_humidity_2m", JInt 40);
               ("wind_speed_10m", JFloat 3)]);
     ("daily",
      JObject [("time", JArray [JString "2024-07-01"; JString "2024-07-02";
                                JString "2024-07-03"]);
               ("temperature_2m_max", JArray [JFloat 30; JFloat 28; JFloat 32]);
               ("temperature_2m_min", JArray [JFloat 20; JFloat 19; JFloat 21]);
               ("precipitation_sum", JArray [JFloat 0; JFloat 0; JFloat 0])]);
     ("hourly",
      JObject [("time", JArray [JString "2024-07-01T00:00";
                                JString "2024-07-01T01:00"]);
               ("temperature_2m", JArray [JFloat 22; JFloat 21])])].

Definition summer_files : files := files_after (always summer) [sochi] ∅.

(** A day of thaw: the maximum is 0 degrees, the minimum -10. *)
Definition thaw : Json.value :=
  JObject
    [("current",
      JObject [("temperature_2m", JFloat (-4)); ("relative_humidity_2m", JInt 80);
               ("wind_speed_10m", JFloat 5)]);
     ("daily",
      JObject [("time", JArray [JString "2024-11-03"]);
               ("temperature_2m_max", JArray [JFloat 0]);
               ("temperature_2m_min", JArray [JFloat (-10)]);
               ("precipitation_sum", JArray [JFloat 2])])].

Definition thaw_files : files := files_after (always thaw) [omsk] ∅.



(** Two cities whose current temperature is above 50 degrees. *)
Definition heat : Json.value :=
  JObject
    [("current",
      JObject [("temperature_2m", JFloat 70); ("relative_humidity_2m", JInt 10);
               ("wind_speed_10m", JFloat 1)])].

Definition heat_files : files := files_after (always heat) [omsk; sochi] ∅.

(** A table that the collector cannot produce (two rows for one city) but
    that the quality queries accept. *)
Definition swing_files : files :=
  {[ default_path :=
       Db [CurrentRow 1 "Oymyakon" (Some (-65)) (Some 70) (Some 2) "t1";
           CurrentRow 2 "Oymyakon" (Some 61) (Some 30) (Some 2) "t2";
           CurrentRow 3 "Sochi" (Some 25) (Some 60) (Some 4) "t3"]
          [] [] ]}.

(** A city with three rows, one of them with a temperature. *)
Definition gaps_files : files :=
  {[ default_path :=
       Db [CurrentRow 1 "Omsk" None (Some 80) (Some 5) "t1";
           CurrentRow 2 "Omsk" (Some 4) (Some 75) None "t2";
           CurrentRow 3 "Omsk" None None (Some 3) "t3"]
          [] [] ]}.

(** A body whose [current] section is [null]. *)
Definition null_section : Json.value := JObject [("current", JNull)].

(** The first request is answered with the body given, every later one with
    [null_section]; all of them with status 200. *)
Definition then_null_section (body : Json.value) : env :=
  Env (λ n _, match n with
              | O => Response 200 (Some body)
              | _ => Response 200 (Some null_section)
              end)
      (λ _, "2024-07-04T12:00:00").

End Scenario.

(** * Properties *)

(** ** Numbers *)

Section numbers.
Local Open Scope Q_scope.

Lemma gt_true (b a : Q) : Py.gt b a = true ↔ a < b.
Proof.
  unfold Py.gt. rewrite negb_true_iff, <- not_true_iff_false, Qle_bool_iff.
  split; [apply Qnot_le_lt | apply Qlt_not_le].
Qed.

Lemma gt_false (b a : Q) : Py.gt b a = false ↔ b <= a.
Proof. unfold Py.gt. rewrite negb_false_iff. apply Qle_bool_iff. Qed.

Lemma ge_true (a b : Q) : Py.ge a b = true ↔ b <= a.
Proof. apply Qle_bool_iff. Qed.

Lemma truthy_Some (x : Q) : Py.truthy (Some x) = true ↔ ¬ x == 0.
Proof.
  simpl. rewrite negb_true_iff, <- not_true_iff_false, Qeq_bool_iff. done.
Qed.

Lemma truthy_and_gt_true (v : option Q) (bound : Q) :
  0 <= bound →
  Py.truthy_and_gt v bound = true ↔ ∃ x, v = Some x ∧ bound < x.
Proof.
  intros Hb. destruct v as [x|]; simpl.
  - rewrite andb_true_iff, negb_true_iff, <- not_true_iff_false,
      Qeq_bool_iff, gt_true.
    split.
    + intros [_ H]. eauto.
    + intros (y & [= <-] & H). split; [|done]. intros E. rewrite E in H. lra.
  - split; [done | intros (x & ? & _); done].
Qed.

Lemma truthy_and_lt_true (v : option Q) (bound : Q) :
  bound <= 0 →
  Py.truthy_and_lt v bound = true ↔ ∃ x, v = Some x ∧ x < bound.
Proof.
  intros Hb. destruct v as [x|]; simpl.
  - rewrite andb_true_iff, negb_true_iff, <- not_true_iff_false,
      Qeq_bool_iff, gt_true.
    split.
    + intros [_ H]. eauto.
    + intros (y & [= <-] & H). split; [|done]. intros E. rewrite E in H. lra.
  - split; [done | intros (x & ? & _); done].
Qed.

(** [max(0, min(100, x))] is the clamp of [x] into [[0, 100]]. *)
Lemma clamp_cases (x : Q) :
  (x < 0 ∧ Py.max 0 (Py.min 100 x) == 0)
  ∨ (0 <= x <= 100 ∧ Py.max 0 (Py.min 100 x) == x)
  ∨ (100 < x ∧ Py.max 0 (Py.min 100 x) == 100).
Proof.
  unfold Py.max, Py.min.
  destruct (Py.gt 100 x) eqn:E1.
  - apply gt_true in E1.
    destruct (Py.gt x 0) eqn:E2.
    + apply gt_true in E2. right; left. split; [lra | reflexivity].
    + apply gt_false in E2.
      destruct (Qlt_le_dec x 0) as [Hx|Hx].
      * left. split; [done | reflexivity].
      * right; left. split; [lra | lra].
  - apply gt_false in E1.
    replace (Py.gt 100 0) with true by (symmetry; apply gt_true; lra).
    destruct (Qlt_le_dec 100 x) as [Hx|Hx].
    + right; right. split; [done | reflexivity].
    + right; left. split; [lra | lra].
Qed.

(** [ROUND(x, 1)] is a multiple of a tenth within a twentieth of [x]. *)
Lemma round1_close (x : Q) :
  ∃ k : Z, Sql.round x 1 == inject_Z k / 10
           ∧ x - (1 # 20) <= Sql.round x 1 <= x + (1 # 20).
Proof.
  unfold Sql.round.
  change (inject_Z (10 ^ Z.of_nat 1)) with 10.
  destruct (Qle_bool 0 x).
  - exists (Qfloor (x * 10 + (1 # 2))). split; [reflexivity|].
    pose proof (Qfloor_le (x * 10 + (1 # 2))) as H1.
    pose proof (Qlt_floor (x * 10 + (1 # 2))) as H2.
    rewrite inject_Z_plus in H2.
    set (f := inject_Z (Qfloor (x * 10 + (1 # 2)))) in *.
    change (inject_Z 1) with 1 in H2.
    split; apply Qle_shift_div_l || apply Qle_shift_div_r; lra.
  - exists (- Qfloor (- x * 10 + (1 # 2)))%Z. split.
    + rewrite inject_Z_opp. field.
    + pose proof (Qfloor_le (- x * 10 + (1 # 2))) as H1.
      pose proof (Qlt_floor (- x * 10 + (1 # 2))) as H2.
      rewrite inject_Z_plus in H2.
      set (f := inject_Z (Qfloor (- x * 10 + (1 # 2)))) in *.
      change (inject_Z 1) with 1 in H2.
      assert (f / 10 <= - x + (1 # 20)) by (apply Qle_shift_div_r; lra).
      assert (- x - (1 # 20) <= f / 10) by (apply Qle_shift_div_l; lra).
      lra.
Qed.

(** [ROUND(x, 1)] of a number that is not negative is [x] rounded to one
    decimal, a half going up. *)
Lemma round1_half_up (x : Q) :
  0 <= x → Spec.rounded_to_one_decimal x (Sql.round x 1).
Proof.
  intros Hx. unfold Spec.rounded_to_one_decimal, Sql.round.
  change (inject_Z (10 ^ Z.of_nat 1)) with 10.
  assert (Qle_bool 0 x = true) as -> by (by apply Qle_bool_iff).
  pose proof (Qfloor_le (x * 10 + (1 # 2))) as H1.
  pose proof (Qlt_floor (x * 10 + (1 # 2))) as H2.
  rewrite inject_Z_plus in H2.
  set (f := inject_Z (Qfloor (x * 10 + (1 # 2)))) in *.
  change (inject_Z 1) with 1 in H2.
  split; [by exists (Qfloor (x * 10 + (1 # 2)))|].
  split; [apply Qlt_shift_div_l | apply Qle_shift_div_r]; lra.
Qed.

(** Rounding to one decimal determines its result. *)
Lemma rounded_to_one_decimal_unique (x p q : Q) :
  Spec.rounded_to_one_decimal x p → Spec.rounded_to_one_decimal x q → p == q.
Proof.
  intros [[k Hk] [Hp1 Hp2]] [[j Hj] [Hq1 Hq2]].
  rewrite Hk, Hj. rewrite Hk in Hp1, Hp2. rewrite Hj in Hq1, Hq2.
  assert (∀ a, a / 10 == a * (1 # 10)) as Htenth by (intros a; field).
  rewrite Htenth in Hp1, Hp2, Hq1, Hq2.
  assert (inject_Z k < inject_Z j + inject_Z 1) as Hkj
    by (change (inject_Z 1) with 1; lra).
  assert (inject_Z j < inject_Z k + inject_Z 1) as Hjk
    by (change (inject_Z 1) with 1; lra).
  rewrite <- inject_Z_plus, <- Zlt_Qlt in Hkj, Hjk.
  assert (k = j) as -> by lia. reflexivity.
Qed.

(** [MIN] is one of the values and below all of them. *)
Lemma Qmin_cases (x z : Q) : Qmin x z = x ∨ Qmin x z = z.
Proof. unfold Qmin, GenericMinMax.gmin. destruct (x ?= z); auto. Qed.

Lemma Qmax_cases (x z : Q) : Qmax x z = x ∨ Qmax x z = z.
Proof. unfold Qmax, GenericMinMax.gmax. destruct (x ?= z); auto. Qed.

Lemma foldl_Qmin_spec (xs : list Q) (x : Q) :
  foldl Qmin x xs ∈ x :: xs ∧ ∀ y, y ∈ x :: xs → foldl Qmin x xs <= y.
Proof.
  revert x. induction xs as [|z xs IH]; intros x; simpl.
  - split; [left|]. intros y ->%list_elem_of_singleton. lra.
  - destruct (IH (Qmin x z)) as [Hin Hle]. split.
    + apply elem_of_cons in Hin as [->|Hin]; [|by do 2 right].
      destruct (Qmin_cases x z) as [->| ->]; [left | right; left].
    + intros y Hy.
      assert (foldl Qmin (Qmin x z) xs <= Qmin x z) as H0
        by (apply Hle; left).
      pose proof (Q.le_min_l x z). pose proof (Q.le_min_r x z).
      apply elem_of_cons in Hy as [->|Hy]; [lra|].
      apply elem_of_cons in Hy as [->|Hy]; [lra|].
      apply Hle. by right.
Qed.

Lemma foldl_Qmax_spec (xs : list Q) (x : Q) :
  foldl Qmax x xs ∈ x :: xs ∧ ∀ y, y ∈ x :: xs → y <= foldl Qmax x xs.
Proof.
  revert x. induction xs as [|z xs IH]; intros x; simpl.
  - split; [left|]. intros y ->%list_elem_of_singleton. lra.
  - destruct (IH (Qmax x z)) as [Hin Hle]. split.
    + apply elem_of_cons in Hin as [->|Hin]; [|by do 2 right].
      destruct (Qmax_cases x z) as [->| ->]; [left | right; left].
    + intros y Hy.
      assert (Qmax x z <= foldl Qmax (Qmax x z) xs) as H0
        by (apply Hle; left).
      pose proof (Q.le_max_l x z). pose proof (Q.le_max_r x z).
      apply elem_of_cons in Hy as [->|Hy]; [lra|].
      apply elem_of_cons in Hy as [->|Hy]; [lra|].
      apply Hle. by right.
Qed.

Lemma sql_min_Some (col : list (option Q)) (m : Q) :
  Sql.min col = Some m →
  m ∈ Sql.non_null col ∧ ∀ y, y ∈ Sql.non_null col → m <= y.
Proof.
  unfold Sql.min. destruct (Sql.non_null col) as [|x xs]; [done|].
  intros [= <-]. apply foldl_Qmin_spec.
Qed.

Lemma sql_max_Some (col : list (option Q)) (m : Q) :
  Sql.max col = Some m →
  m ∈ Sql.non_null col ∧ ∀ y, y ∈ Sql.non_null col → y <= m.
Proof.
  unfold Sql.max. destruct (Sql.non_null col) as [|x xs]; [done|].
  intros [= <-]. apply foldl_Qmax_spec.
Qed.

Lemma sql_min_None (col : list (option Q)) :
  Sql.min col = None ↔ Sql.non_null col = [].
Proof. unfold Sql.min. destruct (Sql.non_null col); naive_solver. Qed.

Lemma sql_max_None (col : list (option Q)) :
  Sql.max col = None ↔ Sql.non_null col = [].
Proof. unfold Sql.max. destruct (Sql.non_null col); naive_solver. Qed.

End numbers.

(** ** Grouping and dictionaries *)

Section grouping.

Lemma elem_of_group_keys (keys : list string) (c : string) :
  c ∈ Sql.group_keys keys ↔ c ∈ keys.
Proof.
  unfold Sql.group_keys.
  rewrite (merge_sort_Permutation Sql.text_le (remove_dups keys)).
  apply elem_of_remove_dups.
Qed.

Lemma NoDup_group_keys (keys : list string) : NoDup (Sql.group_keys keys).
Proof.
  unfold Sql.group_keys.
  rewrite (merge_sort_Permutation Sql.text_le (remove_dups keys)).
  apply NoDup_remove_dups.
Qed.

(** A list without duplicates whose elements all equal [c]. *)
Lemma NoDup_constant (l : list string) (c : string) :
  NoDup l → c ∈ l → (∀ x, x ∈ l → x = c) → l = [c].
Proof.
  intros Hnd Hc Hall. destruct l as [|x l]; [by apply elem_of_nil in Hc|].
  assert (x = c) as -> by (apply Hall; left).
  destruct l as [|y l]; [done|].
  assert (y = c) as -> by (apply Hall; right; left).
  apply NoDup_cons in Hnd as [Hnin _]. exfalso. apply Hnin. left.
Qed.

(** A single city yields a single group. *)
Lemma group_keys_constant (keys : list string) (c : string) :
  c ∈ keys → (∀ x, x ∈ keys → x = c) → Sql.group_keys keys = [c].
Proof.
  intros Hc Hall. apply NoDup_constant.
  - apply NoDup_group_keys.
  - by apply elem_of_group_keys.
  - intros x Hx. by apply Hall, elem_of_group_keys.
Qed.

(** Filling a dictionary in a loop, one key per element. *)
Context {A V : Type} (key : A → string) (val : A → V).

Lemma inserts_lookup_Some (l : list A) (c : string) (v : V) :
  foldl (λ (m : gmap string V) x, <[key x := val x]> m) ∅ l !! c = Some v → ∃ x, x ∈ l ∧ key x = c ∧ v = val x.
Proof.
  induction l as [|x l IH] using rev_ind; simpl.
  - by rewrite lookup_empty.
  - rewrite foldl_app. simpl.
    destruct (decide (key x = c)) as [<-|Hne].
    + rewrite lookup_insert_eq. intros [= <-]. exists x.
      split; [|done]. apply elem_of_app. right. left.
    + rewrite lookup_insert_ne by done. intros (y & Hy & ? & ?)%IH.
      exists y. split; [|done]. apply elem_of_app. by left.
Qed.

Lemma inserts_lookup_elem (l : list A) (m : gmap string V) (x : A) :
  NoDup (key <$> l) → x ∈ l → foldl (λ (m : gmap string V) x, <[key x := val x]> m) m l !! key x = Some (val x).
Proof.
  induction l as [|y l IH] using rev_ind; intros Hnd Hx.
  - by apply elem_of_nil in Hx.
  - rewrite foldl_app. simpl.
    rewrite fmap_app in Hnd. apply NoDup_app in Hnd as (Hnd & Hdisj & _).
    apply elem_of_app in Hx as [Hx| ->%list_elem_of_singleton].
    + rewrite lookup_insert_ne; [by apply IH|].
      intros E. apply (Hdisj (key x)).
      * apply list_elem_of_fmap. eauto.
      * simpl. rewrite E. left.
    + apply lookup_insert_eq.
Qed.

Lemma inserts_dom (l : list A) (c : string) :
  is_Some (foldl (λ (m : gmap string V) x, <[key x := val x]> m) ∅ l !! c) ↔ c ∈ key <$> l.
Proof.
  induction l as [|y l IH] using rev_ind.
  - simpl. rewrite lookup_empty. split; [by intros [? ?] | by intros ?%elem_of_nil].
  - rewrite foldl_app, fmap_app. simpl. rewrite elem_of_app, <- IH.
    destruct (decide (key y = c)) as [<-|Hne].
    + rewrite lookup_insert_eq. split; [intros _; right; left | eauto].
    + rewrite lookup_insert_ne by done. split; [by left|].
      intros [H|H%list_elem_of_singleton]; [done | congruence].
Qed.

End grouping.

(** ** Analyzer: trends and insights *)

Section analyzer.
Import DataAnalyzer.
Local Open Scope Q_scope.

(** What the guard [max_t and min_t] lets through: both bounds present and
    both different from zero. *)
Lemma avg_t_Some (max_t min_t : option Q) (v : Q) :
  avg_t max_t min_t = Some v ↔
  ∃ x y, max_t = Some x ∧ min_t = Some y ∧ ¬ x == 0 ∧ ¬ y == 0
         ∧ v = (x + y) / 2.
Proof.
  unfold avg_t. split.
  - destruct (Py.truthy max_t && Py.truthy min_t) eqn:E; [|done].
    apply andb_true_iff in E as [E1 E2].
    destruct max_t as [x|], min_t as [y|]; try done.
    apply truthy_Some in E1, E2. intros [= <-]. by exists x, y.
  - intros (x & y & -> & -> & Hx & Hy & ->).
    apply truthy_Some in Hx, Hy. by rewrite Hx, Hy.
Qed.

Lemma trends_step_lookup (trends : gmap string (list trend_entry))
    (r : daily_row) (c : string) :
  trends_step trends r !! c =
    if decide (day_city r = c)
    then Some (default [] (trends !! c) ++ [trend_of_row r])
    else trends !! c.
Proof.
  unfold trends_step.
  destruct (trends !! day_city r) eqn:E; case_decide; simplify_map_eq; done.
Qed.

Lemma trends_fold_lookup (rows : list daily_row)
    (m0 : gmap string (list trend_entry)) (c : string) :
  foldl trends_step m0 rows !! c =
    match m0 !! c, trend_of_row <$> filter (λ r, day_city r = c) rows with
    | None, [] => None
    | o, es => Some (default [] o ++ es)
    end.
Proof.
  revert m0. induction rows as [|r rows IH]; intros m0; simpl.
  - destruct (m0 !! c); simpl; [by rewrite app_nil_r | done].
  - rewrite IH, trends_step_lookup, filter_cons.
    destruct (decide (day_city r = c)) as [E|E]; simpl.
    + rewrite <- app_assoc. simpl. by destruct (m0 !! c).
    + done.
Qed.

(** The trends of a city are its rows in the order of the query, each
    turned into an entry by [trend_of_row]. *)
Lemma analyze_temperature_trends_lookup (self : t) (fs : files) (conn : db)
    (c : string) :
  fs !! db_path self = Some conn →
  ∃ trends,
    analyze_temperature_trends self fs = Some trends
    ∧ trends !! c =
        match filter (λ r, day_city r = c)
                (merge_sort by_city_date (weather_daily conn)) with
        | [] => None
        | rs => Some (trend_of_row <$> rs)
        end.
Proof.
  intros Hconn. unfold analyze_temperature_trends. rewrite Hconn. simpl.
  eexists. split; [done|].
  rewrite trends_fold_lookup, lookup_empty.
  by destruct (filter _ _).
Qed.

(** Rows of one city, stored by ascending date, come back as stored. *)
Lemma ltb_leb (a b : string) : String.ltb a b = true → String.leb a b = true.
Proof. unfold String.ltb, String.leb. by destruct (String.compare a b). Qed.

Lemma ltb_not_leb (a b : string) :
  String.ltb a b = true → String.leb b a = false.
Proof.
  unfold String.ltb, String.leb. rewrite (String.compare_antisym a b).
  by destruct (String.compare b a).
Qed.

Lemma ltb_irrefl (a : string) : String.ltb a a = false.
Proof.
  unfold String.ltb.
  pose proof (String.compare_antisym a a) as H.
  by destruct (String.compare a a).
Qed.

Lemma ascii_compare_refl (x : Ascii.ascii) : Ascii.compare x x = Eq.
Proof. apply N.compare_refl. Qed.

Lemma ascii_compare_lt_trans (x y z : Ascii.ascii) :
  Ascii.compare x y = Lt → Ascii.compare y z = Lt → Ascii.compare x z = Lt.
Proof.
  unfold Ascii.compare. rewrite !N.compare_lt_iff. apply N.lt_trans.
Qed.

Lemma compare_lt_trans (a b c : string) :
  String.compare a b = Lt → String.compare b c = Lt →
  String.compare a c = Lt.
Proof.
  revert b c. induction a as [|x a IH]; intros [|y b] [|z c]; simpl; try done.
  destruct (Ascii.compare x y) eqn:Cxy; try done;
    destruct (Ascii.compare y z) eqn:Cyz; try done.
  - apply Ascii.compare_eq_iff in Cxy as ->.
    apply Ascii.compare_eq_iff in Cyz as ->.
    rewrite ascii_compare_refl. apply IH.
  - apply Ascii.compare_eq_iff in Cxy as ->. by rewrite Cyz.
  - apply Ascii.compare_eq_iff in Cyz as <-. by rewrite Cxy.
  - by rewrite (ascii_compare_lt_trans x y z).
Qed.

Lemma ltb_trans (a b c : string) :
  String.ltb a b = true → String.ltb b c = true → String.ltb a c = true.
Proof.
  unfold String.ltb. intros Hab Hbc.
  rewrite (compare_lt_trans a b c); [done | |].
  - by destruct (String.compare a b).
  - by destruct (String.compare b c).
Qed.

Lemma by_city_date_same_city (a b : daily_row) :
  day_city a = day_city b →
  by_city_date a b ↔ String.leb (day_date a) (day_date b) = true.
Proof.
  intros E. unfold by_city_date. rewrite E, ltb_irrefl.
  split; [by intros [?|[_ ?]] | by right].
Qed.

Lemma order_three (r1 r2 r3 : daily_row) :
  day_city r1 = day_city r2 → day_city r2 = day_city r3 →
  String.ltb (day_date r1) (day_date r2) = true →
  String.ltb (day_date r2) (day_date r3) = true →
  merge_sort by_city_date [r1; r2; r3] = [r1; r2; r3].
Proof.
  intros E12 E23 H12 H23.
  assert (by_city_date r1 r2) as L12
    by (apply by_city_date_same_city; [done | by apply ltb_leb]).
  assert (by_city_date r2 r3) as L23
    by (apply by_city_date_same_city; [done | by apply ltb_leb]).
  assert (¬ by_city_date r3 r2) as N32.
  { rewrite by_city_date_same_city by done.
    by rewrite ltb_not_leb. }
  assert (¬ by_city_date r3 r1) as N31.
  { rewrite by_city_date_same_city by congruence.
    by rewrite (ltb_not_leb _ _ (ltb_trans _ _ _ H12 H23)). }
  unfold merge_sort. simpl.
  rewrite decide_True, list_merge_nil_r by done.
  rewrite list_merge_cons, decide_False by done.
  rewrite list_merge_cons, decide_False by done.
  by rewrite list_merge_nil_r.
Qed.

Lemma filter_same_city (rows : list daily_row) (c : string) :
  (∀ r, r ∈ rows → day_city r = c) →
  filter (λ r, day_city r = c) rows = rows.
Proof.
  induction rows as [|r rows IH]; intros H; [done|].
  rewrite filter_cons, decide_True by (apply H; left).
  f_equal. apply IH. intros r' Hr'. apply H. by right.
Qed.

Lemma filter_other_city (rows : list daily_row) (c : string) :
  (∀ r, r ∈ rows → day_city r ≠ c) →
  filter (λ r, day_city r = c) rows = [].
Proof.
  induction rows as [|r rows IH]; intros H; [done|].
  rewrite filter_cons, decide_False by (apply H; left).
  apply IH. intros r' Hr'. apply H. by right.
Qed.

(** C7.  A store whose daily table holds three rows of one city, by
    ascending date, with maxima 30, 28, 32 and minima 20, 19, 21: the
    insights contain the HIGH heat insight of that city, formatted from
    the average maximum 30, and the trends hold for that city, and for no
    other, three entries with the averages 25, 23.5 and 26.5 in this
    order. *)
Theorem C7_three_summer_days (self : t) (fs : files) (conn : db)
    (c d1 d2 d3 : string) (i1 i2 i3 : Z) (p1 p2 p3 : option Q)
    (t1 t2 t3 : string) :
  fs !! db_path self = Some conn →
  weather_daily conn =
    [DailyRow i1 c d1 (Some 30) (Some 20) p1 t1;
     DailyRow i2 c d2 (Some 28) (Some 19) p2 t2;
     DailyRow i3 c d3 (Some 32) (Some 21) p3 t3] →
  String.ltb d1 d2 = true →
  String.ltb d2 d3 = true →
  (∃ insights v,
      generate_insights self fs = Some insights
      ∧ Insight "temperature" c "HIGH" (HighAverageMax v)
          "Подготовить системы охлаждения" ∈ insights
      ∧ v == 30)
  ∧ (∃ trends a1 a2 a3,
      analyze_temperature_trends self fs = Some trends
      ∧ trends !! c = Some [Trend d1 (Some 30) (Some 20) (Some a1);
                            Trend d2 (Some 28) (Some 19) (Some a2);
                            Trend d3 (Some 32) (Some 21) (Some a3)]
      ∧ a1 == 25 ∧ a2 == 47 # 2 ∧ a3 == 53 # 2
      ∧ ∀ c', c' ≠ c → trends !! c' = None).
Proof.
  intros Hconn Hrows H12 H23. split.
  - unfold generate_insights. rewrite Hconn. simpl. rewrite Hrows.
    eexists _, _. split; [done|]. split.
    + apply elem_of_app. left.
      unfold temperature_stats, group_by_city. simpl.
      rewrite (group_keys_constant _ c).
      2: { left. }
      2: { intros x Hx. repeat (apply elem_of_cons in Hx as [->|Hx]; [done|]).
           by apply elem_of_nil in Hx. }
      simpl. rewrite filter_same_city.
      2: { intros x Hx. repeat (apply elem_of_cons in Hx as [->|Hx]; [done|]).
           by apply elem_of_nil in Hx. }
      simpl. left.
    + reflexivity.
  - destruct (analyze_temperature_trends_lookup self fs conn c Hconn)
      as (trends & Htrends & Hc).
    exists trends. eexists _, _, _. split; [done|].
    rewrite Hrows, order_three in Hc by done.
    rewrite filter_same_city in Hc.
    2: { intros x Hx. repeat (apply elem_of_cons in Hx as [->|Hx]; [done|]).
         by apply elem_of_nil in Hx. }
    split; [exact Hc|]. repeat (split; [reflexivity|]).
    intros c' Hc'.
    destruct (analyze_temperature_trends_lookup self fs conn c' Hconn)
      as (trends' & Htrends' & Hlook).
    rewrite Htrends in Htrends'. injection Htrends' as <-.
    rewrite Hlook, Hrows, order_three by done.
    rewrite filter_other_city; [done|].
    intros x Hx. repeat (apply elem_of_cons in Hx as [->|Hx]; [done|]).
    by apply elem_of_nil in Hx.
Qed.

(** The scenario of C7, collected from the API for one city. *)
Lemma C7_three_summer_days_witness :
  (∃ insights v,
      generate_insights (__init__ None) Scenario.summer_files = Some insights
      ∧ Insight "temperature" "Sochi" "HIGH" (HighAverageMax v)
          "Подготовить системы охлаждения" ∈ insights
      ∧ v == 30)
  ∧ (∃ trends a1 a2 a3,
      analyze_temperature_trends (__init__ None) Scenario.summer_files
        = Some trends
      ∧ trends !! "Sochi" =
          Some [Trend "2024-07-01" (Some 30) (Some 20) (Some a1);
                Trend "2024-07-02" (Some 28) (Some 19) (Some a2);
                Trend "2024-07-03" (Some 32) (Some 21) (Some a3)]
      ∧ a1 == 25 ∧ a2 == 47 # 2 ∧ a3 == 53 # 2
      ∧ ∀ c', c' ≠ "Sochi" → trends !! c' = None).
Proof.
  eapply (C7_three_summer_days (__init__ None) Scenario.summer_files);
    [vm_compute; reflexivity | reflexivity | reflexivity | reflexivity].
Defined.

(** C1.  On a daily row whose maximum is 0 degrees and whose minimum is
    -10, both bounds are present, yet the entry returned by the trends has
    no average: the guard [max_t and min_t] reads the zero as absent.  The
    query of the chart generator, [(temp_max + temp_min) / 2], yields -5 on
    the same row. *)
Theorem C1_trends_zero_bound_has_no_average :
  analyze_temperature_trends (__init__ None) Scenario.thaw_files
    ≫= (λ trends, trends !! "Omsk")
  = Some [Trend "2024-11-03" (Some 0) (Some (-10)) None]
  ∧ Sql.mean2 (Some 0) (Some (-10)) = Some ((0 + -10) / 2).
Proof. split; vm_compute; reflexivity. Qed.

End analyzer.

(** ** Quality checker *)

Section quality.
Import DataQuality Spec.
Local Open Scope Q_scope.

Lemma elem_of_group_by_city (rows : list current_row) (c : string)
    (g : list current_row) :
  (c, g) ∈ group_by_city rows ↔
  c ∈ cur_city <$> rows ∧ g = filter (λ r, cur_city r = c) rows.
Proof.
  unfold group_by_city. rewrite list_elem_of_fmap. split.
  - intros (c' & [= <- ->] & Hc). by rewrite elem_of_group_keys in Hc.
  - intros [Hc ->]. exists c. by rewrite elem_of_group_keys.
Qed.

Lemma group_by_city_keys (rows : list current_row) :
  (group_by_city rows).*1 = Sql.group_keys (cur_city <$> rows).
Proof.
  unfold group_by_city. rewrite <- list_fmap_compose.
  rewrite <- (list_fmap_id (Sql.group_keys _)) at 2.
  by apply list_fmap_ext.
Qed.

(** A city that has a row has a non-empty group. *)
Lemma group_nonempty (rows : list current_row) (c : string) :
  c ∈ cur_city <$> rows →
  (0 < length (filter (λ r, cur_city r = c) rows))%nat.
Proof.
  intros (r & -> & Hr)%list_elem_of_fmap.
  assert (r ∈ filter (λ r', cur_city r' = cur_city r) rows) as Hin
    by (by apply list_elem_of_filter).
  destruct (filter _ rows); [by apply elem_of_nil in Hin | simpl; lia].
Qed.



(** *** Completeness *)

Lemma completeness_loop_Some (rows : list completeness_row)
    (results : gmap string completeness_entry) (log : list status_line) :
  (∀ row, row ∈ rows → is_Some (q_completeness_percent row)) →
  ∃ results' lines,
    completeness_loop rows results log = Some (results', log ++ lines)
    ∧ Forall2 line_of_row rows lines
    ∧ (∀ c, c ∉ q_city <$> rows → results' !! c = results !! c)
    ∧ (∀ c, c ∈ q_city <$> rows →
         ∃ row e, row ∈ rows ∧ q_city row = c ∧ results' !! c = Some e
                  ∧ entry_of_row row e).
Proof.
  revert results log. induction rows as [|row rows IH]; intros results log Hall.
  - exists results, []. rewrite app_nil_r. split; [done|].
    split; [constructor|]. split; [done|]. by intros c ?%elem_of_nil.
  - destruct (Hall row) as [p Hp]; [left|]. simpl. rewrite Hp. simpl.
    edestruct (IH (<[q_city row := CompletenessEntry (q_total row)
                       (q_temp_filled row) (q_humid_filled row)
                       (q_wind_filled row) p]> results)
                 (log ++ [StatusLine (if Py.ge p 95 then "OK" else "ВНИМАНИЕ")
                            (q_city row) p]))
      as (results' & lines & Hrun & Hlines & Hout & Hin).
    { intros row' Hrow'. apply Hall. by right. }
    rewrite Hrun, <- app_assoc. simpl.
    eexists results', (_ :: lines). split; [done|]. split.
    { constructor; [|done]. by split. }
    split.
    + intros c Hc. rewrite Hout.
      * apply lookup_insert_ne. intros <-. apply Hc. left.
      * intros H. apply Hc. by right.
    + intros c Hc.
      destruct (decide (c ∈ q_city <$> rows)) as [Hc'|Hc'].
      * destruct (Hin c Hc') as (row' & e & ? & ? & ? & ?).
        exists row', e. split; [by right | done].
      * apply elem_of_cons in Hc as [->|Hc]; [|done].
        exists row. eexists. split; [left|]. split; [done|].
        rewrite Hout by done. rewrite lookup_insert_eq. split; [done|].
        by repeat split.
Qed.

Lemma div_by_count (a : Q) (n : nat) :
  (0 < n)%nat →
  Sql.div a (inject_Z (Z.of_nat n)) = Some (a / inject_Z (Z.of_nat n)).
Proof.
  intros Hn. unfold Sql.div.
  destruct (Qeq_bool _ 0) eqn:E; [|done].
  apply Qeq_bool_iff in E. unfold Qeq in E. simpl in E. lia.
Qed.

Lemma count_filter {A} (f : A → option Q) (l : list A) :
  Sql.count (f <$> l) = length (filter (λ x, is_Some (f x)) l).
Proof.
  unfold Sql.count, Sql.non_null. induction l as [|x l IH]; [done|].
  rewrite filter_cons. simpl. case_decide as Hx.
  - destruct Hx as [v Hv]. rewrite Hv. simpl. f_equal. exact IH.
  - destruct (f x) as [v|]; [|done]. exfalso. apply Hx. eauto.
Qed.

Lemma elem_of_completeness_query (rows : list current_row)
    (row : completeness_row) :
  row ∈ completeness_query rows ↔
  q_city row ∈ cur_city <$> rows
  ∧ row = completeness_of_group (q_city row)
            (filter (λ r, cur_city r = q_city row) rows).
Proof.
  unfold completeness_query. rewrite list_elem_of_fmap. split.
  - intros ([c g] & -> & [Hc ->]%elem_of_group_by_city). done.
  - intros [Hc Hrow]. exists (q_city row, filter (λ r, cur_city r = q_city row) rows).
    split; [done|]. by apply elem_of_group_by_city.
Qed.

Lemma completeness_query_cities (rows : list current_row) (c : string) :
  c ∈ q_city <$> completeness_query rows ↔ c ∈ cur_city <$> rows.
Proof.
  rewrite list_elem_of_fmap. split.
  - intros (row & -> & [H _]%elem_of_completeness_query). done.
  - intros Hc.
    exists (completeness_of_group c (filter (λ r, cur_city r = c) rows)).
    split; [reflexivity|].
    apply elem_of_completeness_query. by split.
Qed.

Lemma completeness_query_percent (rows : list current_row)
    (row : completeness_row) :
  row ∈ completeness_query rows →
  (0 < q_total row)%nat
  ∧ q_completeness_percent row =
      Some (Sql.round (inject_Z (Z.of_nat (q_temp_filled row)) * 100
                       / inject_Z (Z.of_nat (q_total row))) 1).
Proof.
  intros [Hc ->]%elem_of_completeness_query. simpl.
  pose proof (group_nonempty rows _ Hc) as Hpos. split; [done|].
  by rewrite div_by_count.
Qed.

(** What [check_completeness] returns: it never raises, holds an entry for
    exactly the cities that have a row, built from the aggregates of the
    rows of the city, and logs one line per row of the query. *)
Lemma check_completeness_lookup (self : t) (fs : files) (conn : db) :
  fs !! db_path self = Some conn →
  ∃ results log,
    check_completeness self fs = Some (results, log)
    ∧ Forall2 line_of_row (completeness_query (weather_current conn)) log
    ∧ (∀ c, c ∈ cur_city <$> weather_current conn → is_Some (results !! c))
    ∧ (∀ c e, results !! c = Some e →
         c ∈ cur_city <$> weather_current conn
         ∧ entry_of_row
             (completeness_of_group c
                (filter (λ r, cur_city r = c) (weather_current conn))) e).
Proof.
  intros Hconn. unfold check_completeness. rewrite Hconn. simpl.
  set (rows := weather_current conn).
  destruct (completeness_loop_Some (completeness_query rows) ∅ [])
    as (results & lines & Hrun & Hlines & Hout & Hin).
  { intros row [_ ->]%completeness_query_percent. eauto. }
  simpl in Hrun. exists results, lines. split; [done|]. split; [done|]. split.
  - intros c Hc. apply completeness_query_cities in Hc.
    destruct (Hin c Hc) as (_ & e & _ & _ & He & _). eauto.
  - intros c e He.
    destruct (decide (c ∈ q_city <$> completeness_query rows)) as [Hc|Hc].
    + destruct (Hin c Hc) as (row & e' & Hrow & <- & He' & Hrel).
      rewrite He in He'. injection He' as <-.
      apply elem_of_completeness_query in Hrow as [? Hrow].
      by rewrite <- Hrow.
    + rewrite (Hout c Hc), lookup_empty in He. done.
Qed.

(** C4.  The completeness check never raises, whatever the table holds, so
    no percentage is the NULL of a division by zero; it reports exactly the
    cities that have a row, each with at least one row; the percentage of a
    city with T rows, F of them with a temperature, is 100*F/T rounded to
    one decimal: it is a multiple of a tenth, more than 100*F/T - 1/20 and
    at most 100*F/T + 1/20, which is what ROUND(100*F/T, 1) computes; and
    the status logged for a city is OK exactly when its percentage is at
    least 95. *)
Theorem C4_completeness_percent (self : t) (fs : files) (conn : db) :
  fs !! db_path self = Some conn →
  ∃ results log,
    check_completeness self fs = Some (results, log)
    ∧ (∀ c, is_Some (results !! c) ↔ c ∈ cur_city <$> weather_current conn)
    ∧ (∀ c e, results !! c = Some e →
         let group := filter (λ r, cur_city r = c) (weather_current conn) in
         let T := length group in
         let F := length (filter (λ r, is_Some (cur_temperature r)) group) in
         (0 < T)%nat
         ∧ total_records e = T
         ∧ temperature_filled e = F
         ∧ completeness_percent e =
             Sql.round (inject_Z (Z.of_nat F) * 100 / inject_Z (Z.of_nat T)) 1
         ∧ rounded_to_one_decimal
             (inject_Z (Z.of_nat F) * 100 / inject_Z (Z.of_nat T))
             (completeness_percent e))
    ∧ Forall (λ line,
                ∃ e, results !! status_city line = Some e
                     ∧ status_percent line = completeness_percent e
                     ∧ (status line = "OK" ↔ 95 <= completeness_percent e))
             log
    ∧ (∀ c, is_Some (results !! c) →
         ∃ line, line ∈ log ∧ status_city line = c).
Proof.
  intros Hconn.
  destruct (check_completeness_lookup self fs conn Hconn)
    as (results & lines & Hrun & Hlines & Hsome & Hentry).
  set (rows := weather_current conn) in *.
  exists results, lines. split; [done|].
  split; [|split; [|split]].
  - intros c. split; [|by apply Hsome].
    intros [e He]. by apply Hentry in He as [? _].
  - intros c e He. destruct (Hentry c e He) as [Hc (HT & HF & _ & _ & Hp)].
    simpl in HT, HF, Hp.
    pose proof (group_nonempty rows c Hc) as Hpos.
    rewrite div_by_count in Hp by done. simpl in Hp. injection Hp as Hp.
    rewrite count_filter in HF, Hp.
    split; [done|]. split; [done|]. split; [done|]. split; [done|].
    rewrite <- Hp. apply round1_half_up. apply Qle_shift_div_l.
    + unfold Qlt. simpl. lia.
    + unfold Qle. simpl. lia.
  - apply Forall_forall. intros line Hline.
    apply list_elem_of_lookup in Hline as [i Hi].
    destruct (Forall2_lookup_r _ _ _ _ _ Hlines Hi)
      as (row & Hrow & Hcity & Hpercent & Hstatus).
    apply list_elem_of_lookup_2, elem_of_completeness_query in Hrow
      as [Hc Hrow].
    destruct (Hsome _ Hc) as [e He].
    destruct (Hentry _ _ He) as [_ Hrel]. rewrite <- Hrow in Hrel.
    exists e. rewrite Hcity. split; [done|].
    destruct Hrel as (_ & _ & _ & _ & Hp). rewrite Hpercent in Hp.
    injection Hp as Hp. split; [done|]. rewrite Hstatus, Hp.
    destruct (Py.ge (completeness_percent e) 95) eqn:E.
    + apply ge_true in E. done.
    + split; [done|]. intros H. apply ge_true in H. congruence.
  - intros c [e He]. destruct (Hentry c e He) as [Hc _].
    apply completeness_query_cities, list_elem_of_fmap in Hc
      as (row & -> & Hrow).
    apply list_elem_of_lookup in Hrow as [i Hi].
    destruct (Forall2_lookup_l _ _ _ _ _ Hlines Hi)
      as (line & Hline & Hcity & _).
    exists line. split; [|done]. by apply list_elem_of_lookup_2 in Hline.
Qed.

(** The store of [Scenario.gaps_files] at work: one city with three rows,
    one of them with a temperature; its percentage is 33.3 and its status
    is not OK. *)
Lemma C4_completeness_percent_witness :
  Scenario.gaps_files !! db_path (__init__ None)
    = Some (Db [CurrentRow 1 "Omsk" None (Some 80) (Some 5) "t1";
                CurrentRow 2 "Omsk" (Some 4) (Some 75) None "t2";
                CurrentRow 3 "Omsk" None None (Some 3) "t3"]
               [] [])
  ∧ ∃ results log e line,
      check_completeness (__init__ None) Scenario.gaps_files
        = Some (results, log)
      ∧ results !! "Omsk" = Some e
      ∧ total_records e = 3%nat
      ∧ temperature_filled e = 1%nat
      ∧ completeness_percent e == 333 # 10
      ∧ line ∈ log
      ∧ status_city line = "Omsk"
      ∧ status_percent line == 333 # 10
      ∧ status line ≠ "OK".
Proof.
  split; [reflexivity|].
  destruct (C4_completeness_percent (__init__ None) Scenario.gaps_files _
              eq_refl) as (results & log & Hrun & Hcities & Hentry & Hlog & Hlines).
  destruct (proj2 (Hcities "Omsk")) as [e He]; [left|].
  destruct (Hentry _ _ He) as (_ & HT & HF & Hp & _).
  destruct (Hlines "Omsk") as (line & Hline & Hcity); [by exists e|].
  pose proof (proj1 (Forall_forall _ _) Hlog line Hline)
    as (e' & He' & Hpercent & Hstatus).
  rewrite Hcity, He in He'. injection He' as <-.
  assert (completeness_percent e == 333 # 10) as Hvalue
    by (rewrite Hp; vm_compute; reflexivity).
  exists results, log, e, line.
  split; [exact Hrun|]. split; [exact He|]. split; [exact HT|].
  split; [exact HF|]. split; [exact Hvalue|]. split; [exact Hline|].
  split; [exact Hcity|]. split; [by rewrite Hpercent|].
  intros Hok. apply Hstatus in Hok. rewrite Hvalue in Hok.
  vm_compute in Hok. by apply Hok.
Defined.

(** *** Outliers *)

Lemma elem_of_outlier_query (rows : list current_row) (row : outlier_row) :
  row ∈ outlier_query rows ↔
  o_city row ∈ cur_city <$> rows
  ∧ row = outlier_of_group (o_city row)
            (filter (λ r, cur_city r = o_city row) rows).
Proof.
  unfold outlier_query. rewrite list_elem_of_fmap. split.
  - intros ([c g] & -> & [Hc ->]%elem_of_group_by_city). done.
  - intros [Hc Hrow]. exists (o_city row, filter (λ r, cur_city r = o_city row) rows).
    split; [done|]. by apply elem_of_group_by_city.
Qed.

Lemma outlier_query_cities (rows : list current_row) :
  o_city <$> outlier_query rows = Sql.group_keys (cur_city <$> rows).
Proof.
  unfold outlier_query. rewrite <- list_fmap_compose, <- group_by_city_keys.
  apply list_fmap_ext. by intros _ [c g] _.
Qed.

(** What [check_outliers] holds for a city: the entry built from the
    aggregates of the rows of the city, for every city that has a row. *)
Lemma check_outliers_lookup (self : t) (fs : files) (conn : db) :
  fs !! db_path self = Some conn →
  ∃ found,
    check_outliers self fs = Some found
    ∧ ∀ c, found !! c =
        if decide (c ∈ cur_city <$> weather_current conn)
        then Some (anomaly_of
                     (outlier_of_group c
                        (filter (λ r, cur_city r = c) (weather_current conn))))
        else None.
Proof.
  intros Hconn. unfold check_outliers. rewrite Hconn. simpl.
  eexists. split; [done|]. intros c.
  set (rows := weather_current conn). case_decide as Hc.
  - assert (outlier_of_group c (filter (λ r, cur_city r = c) rows)
            ∈ outlier_query rows) as Hrow
      by (by apply elem_of_outlier_query).
    apply (inserts_lookup_elem o_city anomaly_of _ ∅) in Hrow; [done|].
    rewrite outlier_query_cities. apply NoDup_group_keys.
  - apply eq_None_not_Some. intros Hsome.
    apply (inserts_dom o_city anomaly_of) in Hsome.
    rewrite outlier_query_cities, elem_of_group_keys in Hsome. done.
Qed.

(** The types of the flags a row of the query gets. *)
Lemma outlier_types (row : outlier_row) :
  type <$> outliers_of row =
    (if Py.truthy_and_gt (o_temp_range row) 40 then ["extreme_range"] else [])
    ++ (if Py.truthy_and_lt (o_min_temp row) (-60) then ["extreme_cold"] else [])
    ++ (if Py.truthy_and_gt (o_max_temp row) 60 then ["extreme_heat"] else []).
Proof.
  unfold outliers_of. rewrite !fmap_app.
  destruct (o_temp_range row) as [r|], (o_min_temp row) as [m|],
    (o_max_temp row) as [M|]; simpl;
    repeat match goal with |- context [if ?b then _ else _] => destruct b end;
    reflexivity.
Qed.

Lemma flagged_cold (row : outlier_row) :
  "extreme_cold" ∈ type <$> outliers_of row ↔
  ∃ m, o_min_temp row = Some m ∧ m < -60.
Proof.
  rewrite outlier_types, <- truthy_and_lt_true by lra.
  destruct (Py.truthy_and_gt (o_temp_range row) 40),
    (Py.truthy_and_lt (o_min_temp row) (-60)),
    (Py.truthy_and_gt (o_max_temp row) 60); simpl;
    rewrite ?elem_of_cons, ?elem_of_nil; intuition congruence.
Qed.

Lemma flagged_heat (row : outlier_row) :
  "extreme_heat" ∈ type <$> outliers_of row ↔
  ∃ m, o_max_temp row = Some m ∧ 60 < m.
Proof.
  rewrite outlier_types, <- truthy_and_gt_true by lra.
  destruct (Py.truthy_and_gt (o_temp_range row) 40),
    (Py.truthy_and_lt (o_min_temp row) (-60)),
    (Py.truthy_and_gt (o_max_temp row) 60); simpl;
    rewrite ?elem_of_cons, ?elem_of_nil; intuition congruence.
Qed.

Lemma flagged_range (row : outlier_row) :
  "extreme_range" ∈ type <$> outliers_of row ↔
  ∃ v, o_temp_range row = Some v ∧ 40 < v.
Proof.
  rewrite outlier_types, <- truthy_and_gt_true by lra.
  destruct (Py.truthy_and_gt (o_temp_range row) 40),
    (Py.truthy_and_lt (o_min_temp row) (-60)),
    (Py.truthy_and_gt (o_max_temp row) 60); simpl;
    rewrite ?elem_of_cons, ?elem_of_nil; intuition congruence.
Qed.

Lemma unflagged (row : outlier_row) :
  outliers_of row = [] ↔
  Py.truthy_and_gt (o_temp_range row) 40 = false
  ∧ Py.truthy_and_lt (o_min_temp row) (-60) = false
  ∧ Py.truthy_and_gt (o_max_temp row) 60 = false.
Proof.
  unfold outliers_of.
  destruct (o_temp_range row) as [r|], (o_min_temp row) as [m|],
    (o_max_temp row) as [M|]; simpl;
    repeat match goal with |- context [if ?b then _ else _] => destruct b eqn:? end;
    simpl; intuition congruence.
Qed.

Lemma min_below (col : list (option Q)) (b : Q) :
  (∃ m, Sql.min col = Some m ∧ m < b) ↔
  ∃ t, t ∈ Sql.non_null col ∧ t < b.
Proof.
  split.
  - intros (m & [Hin _]%sql_min_Some & Hm). eauto.
  - intros (t & Ht & Hb). destruct (Sql.min col) as [m|] eqn:E.
    + exists m. split; [done|].
      apply sql_min_Some in E as [_ Hle]. specialize (Hle t Ht). lra.
    + apply sql_min_None in E. rewrite E in Ht. by apply elem_of_nil in Ht.
Qed.

Lemma max_above (col : list (option Q)) (b : Q) :
  (∃ m, Sql.max col = Some m ∧ b < m) ↔
  ∃ t, t ∈ Sql.non_null col ∧ b < t.
Proof.
  split.
  - intros (m & [Hin _]%sql_max_Some & Hm). eauto.
  - intros (t & Ht & Hb). destruct (Sql.max col) as [m|] eqn:E.
    + exists m. split; [done|].
      apply sql_max_Some in E as [_ Hle]. specialize (Hle t Ht). lra.
    + apply sql_max_None in E. rewrite E in Ht. by apply elem_of_nil in Ht.
Qed.

Lemma range_above (col : list (option Q)) (b : Q) :
  (∃ v, Sql.sub (Sql.max col) (Sql.min col) = Some v ∧ b < v) ↔
  ∃ t1 t2, t1 ∈ Sql.non_null col ∧ t2 ∈ Sql.non_null col ∧ b < t1 - t2.
Proof.
  split.
  - intros (v & Hv & Hb).
    destruct (Sql.max col) as [M|] eqn:EM; [|done].
    destruct (Sql.min col) as [m|] eqn:Em; [|done].
    injection Hv as <-.
    apply sql_max_Some in EM as [? _]. apply sql_min_Some in Em as [? _].
    eauto.
  - intros (t1 & t2 & H1 & H2 & Hb).
    destruct (Sql.max col) as [M|] eqn:EM.
    2: { apply sql_max_None in EM. rewrite EM in H1.
         by apply elem_of_nil in H1. }
    destruct (Sql.min col) as [m|] eqn:Em.
    2: { apply sql_min_None in Em. rewrite Em in H1.
         by apply elem_of_nil in H1. }
    exists (M - m). split; [done|].
    apply sql_max_Some in EM as [_ HM]. apply sql_min_Some in Em as [_ Hm].
    specialize (HM t1 H1). specialize (Hm t2 H2). lra.
Qed.

(** C6.  The entry [check_outliers] holds for a city [c], where [temps] are
    the temperatures stored for [c]: a stored minimum below -60 is flagged
    extreme_cold, a stored maximum above 60 extreme_heat, a range above 40
    extreme_range; each flag is present exactly when the temperatures of
    the city meet its own condition, whatever the other two flags are; and
    temperatures within [[-60, 60]] that differ by at most 40 leave the
    city without any flag.  Every city that has a row has an entry. *)
Theorem C6_outlier_flags (self : t) (fs : files) (conn : db)
    (found : gmap string anomaly_entry) (c : string) (e : anomaly_entry) :
  fs !! db_path self = Some conn →
  check_outliers self fs = Some found →
  found !! c = Some e →
  let temps :=
    Sql.non_null
      (cur_temperature
         <$> filter (λ r, cur_city r = c) (weather_current conn)) in
  let flags := type <$> anomalies e in
  (∀ m, min_temp e = Some m → m < -60 → "extreme_cold" ∈ flags)
  ∧ (∀ M, max_temp e = Some M → 60 < M → "extreme_heat" ∈ flags)
  ∧ (∀ v, range e = Some v → 40 < v → "extreme_range" ∈ flags)
  ∧ ("extreme_cold" ∈ flags ↔ ∃ t, t ∈ temps ∧ t < -60)
  ∧ ("extreme_heat" ∈ flags ↔ ∃ t, t ∈ temps ∧ 60 < t)
  ∧ ("extreme_range" ∈ flags ↔
       ∃ t1 t2, t1 ∈ temps ∧ t2 ∈ temps ∧ 40 < t1 - t2)
  ∧ ((∀ t, t ∈ temps → -60 <= t <= 60) →
     (∀ t1 t2, t1 ∈ temps → t2 ∈ temps → t1 - t2 <= 40) →
     anomalies e = [] ∧ has_issues e = false)
  ∧ (∀ c', c' ∈ cur_city <$> weather_current conn → is_Some (found !! c')).
Proof.
  intros Hconn Hrun He temps flags.
  destruct (check_outliers_lookup self fs conn Hconn) as (found' & Hrun' & Hlook).
  rewrite Hrun in Hrun'. injection Hrun' as <-.
  rewrite Hlook in He. case_decide as Hc; [|done]. injection He as <-.
  set (g := filter (λ r, cur_city r = c) (weather_current conn)) in *.
  set (row := outlier_of_group c g).
  assert (flags = type <$> outliers_of row) as -> by done.
  assert (min_temp (anomaly_of row) = Sql.min (cur_temperature <$> g)) as -> by done.
  assert (max_temp (anomaly_of row) = Sql.max (cur_temperature <$> g)) as -> by done.
  assert (range (anomaly_of row)
          = Sql.sub (Sql.max (cur_temperature <$> g))
                    (Sql.min (cur_temperature <$> g))) as -> by done.
  assert (o_min_temp row = Sql.min (cur_temperature <$> g)) as Hmin by done.
  assert (o_max_temp row = Sql.max (cur_temperature <$> g)) as Hmax by done.
  assert (o_temp_range row
          = Sql.sub (Sql.max (cur_temperature <$> g))
                    (Sql.min (cur_temperature <$> g))) as Hrange by done.
  pose proof (flagged_cold row) as Hcold. rewrite Hmin in Hcold.
  pose proof (flagged_heat row) as Hheat. rewrite Hmax in Hheat.
  pose proof (flagged_range row) as Hwide. rewrite Hrange in Hwide.
  split; [intros m Hm Hlt; apply Hcold; eauto|].
  split; [intros M HM Hlt; apply Hheat; eauto|].
  split; [intros v Hv Hlt; apply Hwide; eauto|].
  split; [by rewrite Hcold, min_below|].
  split; [by rewrite Hheat, max_above|].
  split; [by rewrite Hwide, range_above|].
  split.
  - intros Hin Hdiff.
    assert (outliers_of row = []) as Hnone.
    { apply unflagged. repeat split; apply not_true_is_false; intros H.
      - apply truthy_and_gt_true in H; [|lra]. rewrite Hrange in H.
        apply range_above in H as (t1 & t2 & H1 & H2 & Hlt).
        specialize (Hdiff t1 t2 H1 H2). lra.
      - apply truthy_and_lt_true in H; [|lra]. rewrite Hmin in H.
        apply min_below in H as (t1 & H1 & Hlt).
        specialize (Hin t1 H1). lra.
      - apply truthy_and_gt_true in H; [|lra]. rewrite Hmax in H.
        apply max_above in H as (t1 & H1 & Hlt).
        specialize (Hin t1 H1). lra. }
    unfold anomaly_of. simpl. by rewrite Hnone.
  - intros c' Hc'. rewrite Hlook. by rewrite decide_True.
Qed.

(** One city with a reading of -65 and one of 61 carries the three flags
    at once; a city with a single reading of 25 carries none. *)
Lemma C6_outlier_flags_witness :
  ∃ found e e',
    check_outliers (__init__ None) Scenario.swing_files = Some found
    ∧ found !! "Oymyakon" = Some e
    ∧ type <$> anomalies e = ["extreme_range"; "extreme_cold"; "extreme_heat"]
    ∧ ("extreme_cold" ∈ type <$> anomalies e ↔
         ∃ t, t ∈ [-65; 61] ∧ t < -60)
    ∧ found !! "Sochi" = Some e'
    ∧ anomalies e' = [].
Proof.
  destruct (check_outliers (__init__ None) Scenario.swing_files)
    as [found|] eqn:Hrun; [|by vm_compute in Hrun].
  destruct (found !! "Oymyakon") as [e|] eqn:He;
    [|by vm_compute in Hrun; injection Hrun as <-].
  destruct (found !! "Sochi") as [e'|] eqn:He';
    [|by vm_compute in Hrun; injection Hrun as <-].
  exists found, e, e'. split; [done|]. split; [done|].
  pose proof (C6_outlier_flags (__init__ None) Scenario.swing_files _
                found "Oymyakon" e eq_refl Hrun He) as (_ & _ & _ & Hcold & _).
  split; [by vm_compute in Hrun; injection Hrun as <-; injection He as <-|].
  split; [exact Hcold|]. split; [done|].
  by vm_compute in Hrun; injection Hrun as <-; injection He' as <-.
Defined.

(** *** The quality score *)

Lemma check_completeness_runs (self : t) (fs : files) (conn : db) :
  fs !! db_path self = Some conn →
  ∃ results log,
    check_completeness self fs = Some (results, log)
    ∧ (weather_current conn = [] → results = ∅).
Proof.
  intros Hconn.
  destruct (check_completeness_lookup self fs conn Hconn)
    as (results & lines & Hrun & _ & _ & Hentry).
  exists results, lines. split; [done|]. intros Hempty.
  apply map_eq. intros c. rewrite lookup_empty.
  apply eq_None_not_Some. intros [e [Hc _]%Hentry].
  rewrite Hempty in Hc. by apply elem_of_nil in Hc.
Qed.

Lemma check_validity_runs (self : t) (choice : list current_row → nat)
    (fs : files) (conn : db) :
  fs !! db_path self = Some conn → is_Some (check_validity self choice fs).
Proof. intros Hconn. unfold check_validity. rewrite Hconn. simpl. eauto. Qed.

(** The lines of [generate_quality_report] that compute the score. *)
Lemma report_score (self : t) (choice : list current_row → nat)
    (now : string) (fs : files) (r : report) :
  generate_quality_report self choice now fs = Some r →
  let percents :=
    (λ c, completeness_percent c.2) <$> map_to_list (r_completeness r) in
  (∃ log, check_completeness self fs = Some (r_completeness r, log))
  ∧ check_outliers self fs = Some (r_anomalies r)
  ∧ avg_completeness (r_metrics r) =
      match percents with
      | [] => 0
      | _ => Py.sum percents / inject_Z (Z.of_nat (length percents))
      end
  ∧ total_anomalies (r_metrics r) =
      sum_list ((λ a, length (anomalies a.2)) <$> map_to_list (r_anomalies r))
  ∧ quality_score r =
      Py.max 0 (Py.min 100
        (avg_completeness (r_metrics r)
         - inject_Z (Z.of_nat (total_anomalies (r_metrics r)) * 2))).
Proof.
  unfold generate_quality_report.
  destruct (check_completeness self fs) as [[results log]|]; [|done].
  destruct (check_outliers self fs) as [found|]; [|done].
  destruct (check_validity self choice fs) as [checked|]; [|done].
  simpl. intros [= <-]. simpl. eauto 10.
Qed.

Lemma foldl_Qplus (xs : list Q) (a : Q) :
  foldl Qplus a xs == a + foldr Qplus 0 xs.
Proof.
  revert a. induction xs as [|x xs IH]; intros a; simpl; [lra|].
  rewrite IH. lra.
Qed.

Lemma clamp_python (x : Q) : Py.max 0 (Py.min 100 x) == clamp 0 100 x.
Proof.
  unfold clamp.
  destruct (clamp_cases x) as [[? ->]|[[? ->]|[? ->]]];
    destruct (Qlt_le_dec x 0), (Qlt_le_dec 100 x); lra.
Qed.

Lemma clamp_compat (x y : Q) : x == y → clamp 0 100 x == clamp 0 100 y.
Proof.
  intros E. unfold clamp.
  destruct (Qlt_le_dec x 0), (Qlt_le_dec 100 x), (Qlt_le_dec y 0),
    (Qlt_le_dec 100 y); lra.
Qed.

Lemma clamp_monotone (x y : Q) :
  x <= y → Py.max 0 (Py.min 100 x) <= Py.max 0 (Py.min 100 y).
Proof.
  intros Hxy.
  destruct (clamp_cases x) as [[? ->]|[[? ->]|[? ->]]];
    destruct (clamp_cases y) as [[? ->]|[[? ->]|[? ->]]]; lra.
Qed.

(** C3.  The report is always produced.  Its score is the average of the
    completeness percentages of the cities minus two points per outlier,
    summed over the cities, clamped into [[0, 100]]; with no city in the
    store the score is 0; and of two reports with the same average
    completeness the one with more outliers has the lower or equal
    score. *)
Theorem C3_quality_score (self : t) (choice : list current_row → nat)
    (now : string) (fs : files) (conn : db) :
  fs !! db_path self = Some conn →
  ∃ r,
    generate_quality_report self choice now fs = Some r
    ∧ (∃ log, check_completeness self fs = Some (r_completeness r, log))
    ∧ check_outliers self fs = Some (r_anomalies r)
    ∧ (let percents :=
         (λ c, completeness_percent c.2) <$> map_to_list (r_completeness r) in
       let outliers :=
         sum_list ((λ a, length (anomalies a.2))
                     <$> map_to_list (r_anomalies r)) in
       percents ≠ [] → quality_score r == Spec.score percents outliers)
    ∧ (weather_current conn = [] → quality_score r == 0)
    ∧ 0 <= quality_score r <= 100
    ∧ (∀ self' choice' now' fs' r',
         generate_quality_report self' choice' now' fs' = Some r' →
         avg_completeness (r_metrics r') == avg_completeness (r_metrics r) →
         (total_anomalies (r_metrics r) ≤ total_anomalies (r_metrics r'))%nat →
         quality_score r' <= quality_score r).
Proof.
  intros Hconn.
  destruct (check_completeness_runs self fs conn Hconn)
    as (results & log & Hcomp & Hempty).
  destruct (check_outliers_lookup self fs conn Hconn) as (found & Hout & Hlook).
  destruct (check_validity_runs self choice fs conn Hconn) as [checked Hval].
  destruct (generate_quality_report self choice now fs) as [r|] eqn:Hrun.
  2: { unfold generate_quality_report in Hrun.
       rewrite Hcomp, Hout, Hval in Hrun. done. }
  exists r. split; [done|].
  destruct (report_score _ _ _ _ _ Hrun)
    as ([log' Hcomp'] & Hout' & Havg & Htotal & Hscore).
  split; [eauto|]. split; [done|].
  split; [|split; [|split]].
  - simpl. intros Hne. rewrite Hscore, clamp_python. unfold Spec.score.
    apply clamp_compat. rewrite Havg, Htotal.
    destruct (_ <$> map_to_list (r_completeness r)) as [|p ps] eqn:E; [done|].
    unfold Spec.mean, Py.sum.
    rewrite inject_Z_mult. change (inject_Z 2) with 2.
    set (n := inject_Z (Z.of_nat (sum_list _))).
    set (k := inject_Z (Z.of_nat (length (p :: ps)))).
    rewrite (foldl_Qplus (p :: ps) 0).
    set (t := foldr Qplus 0 (p :: ps)).
    unfold Qdiv. ring.
  - intros Hnone. rewrite Hscore, Havg, Htotal.
    rewrite Hcomp in Hcomp'. injection Hcomp' as <- _.
    rewrite Hout in Hout'. injection Hout' as <-.
    rewrite (Hempty Hnone), map_to_list_empty. simpl.
    assert (found = ∅) as ->.
    { apply map_eq. intros c. rewrite Hlook, Hnone, lookup_empty.
      by rewrite decide_False by (by intros ?%elem_of_nil). }
    rewrite map_to_list_empty. reflexivity.
  - rewrite Hscore.
    destruct (clamp_cases (avg_completeness (r_metrics r)
               - inject_Z (Z.of_nat (total_anomalies (r_metrics r)) * 2)))
      as [[? ->]|[[? ->]|[? ->]]]; lra.
  - intros self' choice' now' fs' r' Hrun' Hsame Hmore.
    destruct (report_score _ _ _ _ _ Hrun') as (_ & _ & _ & _ & Hscore').
    rewrite Hscore, Hscore'. apply clamp_monotone.
    rewrite Hsame.
    assert (inject_Z (Z.of_nat (total_anomalies (r_metrics r)) * 2)
            <= inject_Z (Z.of_nat (total_anomalies (r_metrics r')) * 2)) as H.
    { rewrite <- Zle_Qle. lia. }
    lra.
Qed.

(** The report on [Scenario.swing_files]: two cities, both complete, three
    outliers, hence 100 - 6. *)
Lemma C3_quality_score_witness :
  Scenario.swing_files !! db_path (__init__ None)
    = Some (Db [CurrentRow 1 "Oymyakon" (Some (-65)) (Some 70) (Some 2) "t1";
                CurrentRow 2 "Oymyakon" (Some 61) (Some 30) (Some 2) "t2";
                CurrentRow 3 "Sochi" (Some 25) (Some 60) (Some 4) "t3"]
               [] [])
  ∧ ∃ r,
      generate_quality_report (__init__ None) (λ _, 0%nat) "2024-07-04"
        Scenario.swing_files = Some r
      ∧ quality_score r == 94
      ∧ 0 <= quality_score r <= 100.
Proof.
  split; [reflexivity|].
  destruct (C3_quality_score (__init__ None) (λ _, 0%nat) "2024-07-04"
              Scenario.swing_files _ eq_refl)
    as (r & Hrun & _ & _ & _ & _ & Hbounds & _).
  exists r. split; [done|]. split; [|done].
  vm_compute in Hrun. injection Hrun as <-. reflexivity.
Defined.

(** *** Validity *)

(** Each validity query yields exactly one row, whatever the table. *)
Lemma ungrouped_count_one_row (choice : list current_row → nat)
    (matching : list current_row) :
  length (ungrouped_count choice matching) = 1%nat.
Proof. reflexivity. Qed.

(** [check_validity] on an open database. *)
Lemma check_validity_open (self : t) (choice : list current_row → nat)
    (fs : files) (conn : db) :
  fs !! db_path self = Some conn →
  check_validity self choice fs =
    Some
      (let too_hot_or_cold :=
         filter (λ r, Sql.out_of_range (-50) 50 (cur_temperature r) = true)
           (weather_current conn) in
       let too_wet_or_dry :=
         filter (λ r, Sql.out_of_range 0 100 (cur_humidity r) = true)
           (weather_current conn) in
       let issues :=
         foldl (issues_step InvalidHumidity)
           (foldl (issues_step InvalidTemperature) ∅
              (ungrouped_count choice too_hot_or_cold))
           (ungrouped_count choice too_wet_or_dry) in
       if decide (issues = ∅) then NoProblemsFound else Issues issues).
Proof. intros Hconn. unfold check_validity. by rewrite Hconn. Qed.

(** C5.  Two cities, Omsk and Sochi, each with one reading of 70 degrees,
    outside [[-50, 50]].  Whichever row the engine evaluates [city] on, the
    check reports a single city, charges it with both invalid rows, and
    leaves the other city out; the humidity query, matching no row, adds
    the key NULL with no issue. *)
Theorem C5_validity_counts_not_per_city (choice : list current_row → nat) :
  check_validity (__init__ None) choice Scenario.heat_files
    = Some (Issues {[ Some "Omsk" := [InvalidTemperature 2]; None := [] ]})
  ∨ check_validity (__init__ None) choice Scenario.heat_files
    = Some (Issues {[ Some "Sochi" := [InvalidTemperature 2]; None := [] ]}).
Proof.
  set (rows := [CurrentRow 1 "Omsk" (Some 70) (Some 10) (Some 1)
                  "2024-07-01T12:00:00";
                CurrentRow 2 "Sochi" (Some 70) (Some 10) (Some 1)
                  "2024-07-01T12:00:00"]).
  rewrite (check_validity_open _ _ _ (Db rows [] []))
    by (vm_compute; reflexivity).
  cbv zeta.
  assert (filter (λ r, Sql.out_of_range (-50) 50 (cur_temperature r) = true)
            (weather_current (Db rows [] [])) = rows) as -> by reflexivity.
  assert (filter (λ r, Sql.out_of_range 0 100 (cur_humidity r) = true)
            (weather_current (Db rows [] [])) = []) as -> by reflexivity.
  unfold ungrouped_count.
  pose proof (Nat.mod_upper_bound (choice rows) (length rows)) as Hlt.
  destruct (choice rows `mod` length rows) as [|[|n]] eqn:E;
    [left | right | simpl in Hlt; lia].
  - vm_compute. reflexivity.
  - vm_compute. reflexivity.
Qed.

End quality.

(** ** Collector *)

Section collector.
Import DataCollector Spec.

Lemma fetch_city_weather_spec (self : t) (e : env) (c : city_record)
    (log : list request) :
  fetch_city_weather self e c log =
    (collected_payload self e (length log) c, log ++ [request_of self c]).
Proof.
  unfold fetch_city_weather, collected_payload, request_of.
  destruct (serve e _ _) as [status [body|]|]; try done;
    by destruct (status =? 200)%Z.
Qed.

Lemma gather_spec (self : t) (e : env) (cities : list city_record)
    (log : list request) :
  gather self e cities log =
    (imap (λ i, collected_payload self e (length log + i)) cities,
     log ++ (request_of self <$> cities)).
Proof.
  revert log. induction cities as [|c cities IH]; intros log; simpl.
  - by rewrite app_nil_r.
  - rewrite fetch_city_weather_spec, IH. rewrite Nat.add_0_r.
    rewrite <- app_assoc, length_app. simpl. f_equal. f_equal.
    apply imap_ext. intros i x _. simpl. f_equal. lia.
Qed.

(** *** Transactions *)

(** A sequence of steps returns when each of them does. *)
Lemma all_Returns {A} (steps : list (Py.result A)) (xs : list A) :
  Py.all steps = Py.Returns xs ↔ Forall2 (λ r x, r = Py.Returns x) steps xs.
Proof.
  revert xs. induction steps as [|r steps IH]; intros xs.
  - simpl. split.
    + intros [= <-]. constructor.
    + intros H. by inversion H.
  - cbn [Py.all]. split.
    + destruct r as [x| |], (Py.all steps) as [ys| |]; simpl; try done.
      intros [= <-]. constructor; [done|]. by apply IH.
    + intros H. inversion H as [|? y ? ys Hr Hrest]; subst.
      apply IH in Hrest. by rewrite Hrest.
Qed.

(** It raises when one of them does, and only then. *)
Lemma all_Raises {A} (steps : list (Py.result A)) :
  Py.all steps = Py.Raises ↔ Py.Raises ∈ steps.
Proof.
  induction steps as [|r steps IH].
  - simpl. split; [done | by intros ?%elem_of_nil].
  - cbn [Py.all]. rewrite elem_of_cons, <- IH.
    destruct r as [x| |], (Py.all steps) as [ys| |]; simpl;
      intuition congruence.
Qed.

Lemma read_all_Returns (collected : list fetched) (stored : list payload) :
  Py.all (read_item <$> collected) = Py.Returns stored ↔
  store_takes collected stored.
Proof. unfold store_takes. by rewrite all_Returns, Forall2_fmap_l. Qed.

(** [_save_to_db] on an open database. *)
Lemma save_to_db_returns (self : t) (collected : list fetched) (fs : files)
    (conn : db) (fs' : files) :
  fs !! db_path self = Some conn →
  _save_to_db self collected fs = Py.Returns fs' ↔
  ∃ stored, store_takes collected stored
            ∧ fs' = <[db_path self := foldl save_item conn stored]> fs.
Proof.
  intros Hconn. unfold _save_to_db. rewrite Hconn.
  destruct (Py.all (read_item <$> collected)) as [stored| |] eqn:E; simpl.
  - split.
    + intros [= <-]. exists stored. by rewrite <- read_all_Returns.
    + intros (stored' & Hstored & ->). rewrite <- read_all_Returns in Hstored.
      congruence.
  - split; [done|]. intros (stored & Hstored & _).
    rewrite <- read_all_Returns in Hstored. congruence.
  - split; [done|]. intros (stored & Hstored & _).
    rewrite <- read_all_Returns in Hstored. congruence.
Qed.

Lemma save_to_db_raises (self : t) (collected : list fetched) (fs : files)
    (conn : db) :
  fs !! db_path self = Some conn →
  _save_to_db self collected fs = Py.Raises ↔
  ∃ item, item ∈ collected ∧ read_item item = Py.Raises.
Proof.
  intros Hconn. unfold _save_to_db. rewrite Hconn.
  destruct (Py.all (read_item <$> collected)) as [stored| |] eqn:E; simpl.
  - split; [done|]. intros (item & Hitem & Hraises).
    assert (Py.all (read_item <$> collected) = Py.Raises) as E'.
    { apply all_Raises, list_elem_of_fmap. eauto. }
    congruence.
  - split; [|done]. intros _.
    apply all_Raises, list_elem_of_fmap in E as (item & ? & ?). eauto.
  - split; [done|]. intros (item & Hitem & Hraises).
    assert (Py.all (read_item <$> collected) = Py.Raises) as E'.
    { apply all_Raises, list_elem_of_fmap. eauto. }
    congruence.
Qed.

(** [collect_batch]: one request per city, then the items of the
    successful ones are given to [_save_to_db]. *)
Lemma collect_batch_spec (self : t) (e : env) (cities : list city_record)
    (fs : files) :
  collect_batch self e cities fs =
    let collected := omap id (imap (collected_payload self e) cities) in
    Py.map_result (λ fs', (collected, fs', request_of self <$> cities))
      (_save_to_db self collected fs).
Proof. unfold collect_batch. by rewrite gather_spec. Qed.

(** One run that returns: the collector opened the fixed path, creating
    the tables when the file was new, and wrote there what it read out of
    the items it returns. *)
Lemma collection_run_returns (days : option Z) (e : env)
    (cities : list city_record) (fs : files) (collected : list fetched)
    (fs' : files) (log : list request) :
  collection_run days e cities fs = Py.Returns (collected, fs', log) →
  ∃ self stored,
    self = (__init__ days fs).1
    ∧ collected = omap id (imap (collected_payload self e) cities)
    ∧ log = request_of self <$> cities
    ∧ store_takes collected stored
    ∧ fs' = <["data/weather_data.db" :=
               foldl save_item
                 (default empty_db (fs !! "data/weather_data.db")) stored]> fs.
Proof.
  unfold collection_run, __init__. cbv zeta. rewrite collect_batch_spec.
  cbv zeta.
  set (self := Collector _ _ _).
  set (collected' := omap id (imap (collected_payload self e) cities)).
  destruct (_save_to_db self collected' (_init_db self fs)) as [fs1| |] eqn:E;
    simpl; [|done|done].
  intros [= <- <- <-].
  apply (save_to_db_returns self collected' (_init_db self fs)
           (default empty_db (fs !! "data/weather_data.db"))) in E
    as (stored & Hstored & ->); [|apply lookup_insert_eq].
  exists self, stored. split; [done|]. split; [done|]. split; [done|].
  split; [done|]. unfold _init_db. simpl db_path. by rewrite insert_insert_eq.
Qed.

(** *** Writing the rows *)

Lemma insert_or_replace_unique (t : list current_row) (c : string)
    (temperature humidity wind_speed : option Q) (at_ : string) :
  NoDup (cur_city <$> t) →
  NoDup (cur_city <$> insert_or_replace_current t c temperature humidity
                        wind_speed at_).
Proof.
  intros Hnd. unfold insert_or_replace_current. rewrite fmap_app.
  apply NoDup_app. split; [|split].
  - induction t as [|r t IH]; [constructor|].
    simpl in Hnd. apply NoDup_cons in Hnd as [Hnin Hnd].
    rewrite filter_cons. case_decide; [|by apply IH].
    simpl. apply NoDup_cons. split; [|by apply IH].
    intros (r' & E & [_ Hr']%list_elem_of_filter)%list_elem_of_fmap.
    apply Hnin, list_elem_of_fmap. eauto.
  - intros x (r & Hx & [Hr _]%list_elem_of_filter)%list_elem_of_fmap.
    simpl. intros Hc%list_elem_of_singleton. congruence.
  - simpl. apply NoDup_singleton.
Qed.

Lemma save_item_current (conn : db) (item : payload) :
  weather_current (save_item conn item) =
    match current (data item) with
    | Some cur =>
        insert_or_replace_current (weather_current conn) (city item)
          (temperature_2m cur) (relative_humidity_2m cur)
          (wind_speed_10m cur) (collected_at item)
    | None => weather_current conn
    end.
Proof.
  unfold save_item.
  by destruct (current (data item)), (daily (data item)),
    (hourly (data item)).
Qed.

Lemma save_item_unique (conn : db) (item : payload) :
  one_row_per_city conn → one_row_per_city (save_item conn item).
Proof.
  unfold one_row_per_city. rewrite save_item_current.
  destruct (current (data item)); [apply insert_or_replace_unique | done].
Qed.

Lemma save_all_unique (conn : db) (collected : list payload) :
  one_row_per_city conn → one_row_per_city (foldl save_item conn collected).
Proof.
  revert conn. induction collected as [|p ps IH]; intros conn H; [done|].
  simpl. by apply IH, save_item_unique.
Qed.

(** A loop of plain inserts appends one row per turn. *)
Lemma loop_of_inserts {A B} (step : list A → B → list A)
    (mk : list A → B → A) (l : list B) (t : list A) :
  (∀ t x, step t x = t ++ [mk t x]) →
  ∃ new, foldl step t l = t ++ new ∧ length new = length l.
Proof.
  intros Hstep. revert t. induction l as [|x l IH]; intros t; simpl.
  - exists []. by rewrite app_nil_r.
  - destruct (IH (step t x)) as (new & -> & Hlen). rewrite Hstep.
    exists (mk t x :: new). rewrite <- app_assoc. simpl. by rewrite Hlen.
Qed.

Lemma save_item_daily (conn : db) (item : payload) :
  ∃ new, weather_daily (save_item conn item) = weather_daily conn ++ new
         ∧ length new = daily_entries item.
Proof.
  unfold save_item, daily_entries.
  destruct (daily (data item)) as [dl|].
  - edestruct (loop_of_inserts
      (λ t '(i, date),
         insert_daily t (city item) date
           (Py.get_or_none (temperature_2m_max dl) i)
           (Py.get_or_none (temperature_2m_min dl) i)
           (Py.get_or_none (precipitation_sum dl) i) (collected_at item))
      (λ t '(i, date),
         DailyRow (next_id day_id t) (city item) date
           (Py.get_or_none (temperature_2m_max dl) i)
           (Py.get_or_none (temperature_2m_min dl) i)
           (Py.get_or_none (precipitation_sum dl) i) (collected_at item))
      (imap pair (daily_time dl))
      (weather_daily conn)) as (new & Hnew & Hlen).
    { by intros t [i date]. }
    exists new. rewrite length_imap in Hlen. split; [|done].
    by destruct (current (data item)), (hourly (data item)).
  - exists []. rewrite app_nil_r.
    by destruct (current (data item)), (hourly (data item)).
Qed.

Lemma save_item_hourly (conn : db) (item : payload) :
  ∃ new, weather_hourly (save_item conn item) = weather_hourly conn ++ new
         ∧ length new = hourly_entries item.
Proof.
  unfold save_item, hourly_entries.
  destruct (hourly (data item)) as [hl|].
  - edestruct (loop_of_inserts
      (λ t '(i, hour),
         insert_hourly t (city item) hour
           (Py.get_or_none (hourly_temperature_2m hl) i) (collected_at item))
      (λ t '(i, hour),
         HourlyRow (next_id hour_id t) (city item) hour
           (Py.get_or_none (hourly_temperature_2m hl) i) (collected_at item))
      (imap pair (hourly_time hl))
      (weather_hourly conn)) as (new & Hnew & Hlen).
    { by intros t [i hour]. }
    exists new. rewrite length_imap in Hlen. split; [|done].
    by destruct (current (data item)), (daily (data item)).
  - exists []. rewrite app_nil_r.
    by destruct (current (data item)), (daily (data item)).
Qed.

Lemma save_all_daily (conn : db) (collected : list payload) :
  ∃ new,
    weather_daily (foldl save_item conn collected) = weather_daily conn ++ new
    ∧ length new = sum_list (daily_entries <$> collected).
Proof.
  revert conn. induction collected as [|p ps IH]; intros conn; simpl.
  - exists []. by rewrite app_nil_r.
  - destruct (IH (save_item conn p)) as (new & -> & Hlen).
    destruct (save_item_daily conn p) as (new1 & -> & Hlen1).
    exists (new1 ++ new). rewrite <- app_assoc, length_app. split; [done|].
    rewrite Hlen, Hlen1. done.
Qed.

Lemma save_all_hourly (conn : db) (collected : list payload) :
  ∃ new,
    weather_hourly (foldl save_item conn collected)
      = weather_hourly conn ++ new
    ∧ length new = sum_list (hourly_entries <$> collected).
Proof.
  revert conn. induction collected as [|p ps IH]; intros conn; simpl.
  - exists []. by rewrite app_nil_r.
  - destruct (IH (save_item conn p)) as (new & -> & Hlen).
    destruct (save_item_hourly conn p) as (new1 & -> & Hlen1).
    exists (new1 ++ new). rewrite <- app_assoc, length_app. split; [done|].
    rewrite Hlen, Hlen1. done.
Qed.

(** *** The invariant of the reachable stores *)

(** The collector only ever writes the fixed path, and the table of
    current observations it leaves there has one row per city. *)
Lemma reachable_unique (fs : files) :
  reachable fs →
  ∀ path conn, fs !! path = Some conn →
    path = "data/weather_data.db" ∧ one_row_per_city conn.
Proof.
  induction 1 as [|fs days e cities collected fs' log Hreach IH Hrun];
    intros path conn Hconn.
  - by rewrite lookup_empty in Hconn.
  - apply collection_run_returns in Hrun
      as (self & stored & _ & _ & _ & _ & ->).
    destruct (decide (path = "data/weather_data.db")) as [->|Hne].
    + split; [done|]. rewrite lookup_insert_eq in Hconn.
      injection Hconn as <-. apply save_all_unique.
      destruct (fs !! "data/weather_data.db") as [d|] eqn:E; simpl.
      * by apply (IH _ _ E).
      * constructor.
    + rewrite lookup_insert_ne in Hconn by done.
      by destruct (IH _ _ Hconn).
Qed.

(** *** The batch *)

(** Bodies that [_save_to_db] raises on: a body that is [null], a section
    that is [null], a [time] that is [null], an integer beyond 64 bits. *)
Lemma unwritable_bodies (city at_ : string) :
  read_item (Fetched city Json.JNull at_) = Py.Raises
  ∧ read_item (Fetched city Scenario.null_section at_) = Py.Raises
  ∧ read_item
      (Fetched city
         (Json.JObject
            [("daily", Json.JObject [("time", Json.JNull)])]) at_)
    = Py.Raises
  ∧ read_item
      (Fetched city
         (Json.JObject
            [("current",
              Json.JObject [("temperature_2m", Json.JInt (2 ^ 63))])]) at_)
    = Py.Raises.
Proof. repeat split. Qed.

(** A body without any of the three sections is written as no row. *)
Lemma empty_body_is_taken (city at_ : string) :
  read_item (Fetched city (Json.JObject []) at_)
  = Py.Returns (Payload city (ApiData None None None) at_).
Proof. reflexivity. Qed.

(** C8, as stated, fails on a body that the store does not take: the two
    requests of the batch are answered with status 200 and a body that
    decodes, so both cities are successfully collected; the second body
    holds [null] for its [current] section, and the batch raises instead
    of returning the two payloads. *)
Lemma C8_null_section_aborts_the_batch :
  Scenario.fresh_files !! db_path (__init__ None ∅).1 = Some empty_db
  ∧ omap id (imap (collected_payload (__init__ None ∅).1
                     (Scenario.then_null_section Scenario.thaw))
               [Scenario.omsk; Scenario.sochi])
    = [Fetched "Omsk" Scenario.thaw "2024-07-04T12:00:00";
       Fetched "Sochi" Scenario.null_section "2024-07-04T12:00:00"]
  ∧ collect_batch (__init__ None ∅).1
      (Scenario.then_null_section Scenario.thaw)
      [Scenario.omsk; Scenario.sochi] Scenario.fresh_files
    = Py.Raises
  ∧ ¬ ∃ collected fs' log,
        collect_batch (__init__ None ∅).1
          (Scenario.then_null_section Scenario.thaw)
          [Scenario.omsk; Scenario.sochi] Scenario.fresh_files
        = Py.Returns (collected, fs', log).
Proof.
  split; [reflexivity|]. split; [reflexivity|].
  assert (collect_batch (__init__ None ∅).1
            (Scenario.then_null_section Scenario.thaw)
            [Scenario.omsk; Scenario.sochi] Scenario.fresh_files
          = Py.Raises) as Hraises by (vm_compute; reflexivity).
  split; [exact Hraises|].
  intros (collected & fs' & log & Hreturns).
  rewrite Hraises in Hreturns. discriminate Hreturns.
Qed.

(** C8, amended.  In a batch on an open database one request is sent per
    city, in the order of the cities, whatever the earlier requests ended
    in, so nothing is retried and nothing is skipped; the cities collected
    are exactly those whose request is answered with status 200 and a body
    that decodes, in the order of the cities, and a request that raises or
    is answered with another status contributes nothing.  The batch
    returns these payloads, as they came, when the store takes every one of
    them, and then their rows are written; it returns nothing else; and it
    raises, after all the requests, exactly when writing one of the
    payloads raises. *)
Theorem C8_collect_batch (self : t) (e : env) (cities : list city_record)
    (fs : files) (conn : db) :
  fs !! db_path self = Some conn →
  let collected := omap id (imap (collected_payload self e) cities) in
  let log := request_of self <$> cities in
  gather self e cities [] = (imap (collected_payload self e) cities, log)
  ∧ (∀ p, p ∈ collected ↔
       ∃ i c body,
         cities !! i = Some c
         ∧ serve e i (request_of self c) = Response 200 (Some body)
         ∧ p = Fetched (name c) body (now e i))
  ∧ (∀ i c, cities !! i = Some c →
       serve e i (request_of self c) = Failed
       ∨ (∃ status json, serve e i (request_of self c) = Response status json
                         ∧ status ≠ 200%Z) →
       collected_payload self e i c = None)
  ∧ (length collected ≤ length cities)%nat
  ∧ (∀ stored, store_takes collected stored →
       collect_batch self e cities fs =
         Py.Returns (collected,
                     <[db_path self := foldl save_item conn stored]> fs,
                     log))
  ∧ (∀ returned fs' log',
       collect_batch self e cities fs = Py.Returns (returned, fs', log') →
       returned = collected ∧ log' = log
       ∧ ∃ stored, store_takes collected stored
                   ∧ fs' = <[db_path self := foldl save_item conn stored]> fs)
  ∧ (collect_batch self e cities fs = Py.Raises ↔
       ∃ item, item ∈ collected ∧ read_item item = Py.Raises).
Proof.
  intros Hconn collected log.
  split; [by rewrite gather_spec|].
  split; [|split; [|split; [|split; [|split]]]].
  - intros p. unfold collected. rewrite list_elem_of_omap. split.
    + intros (o & (i & c & -> & Hc)%elem_of_lookup_imap & Ho). simpl in Ho.
      unfold collected_payload in Ho.
      destruct (serve e i (request_of self c)) as [status [body|]|] eqn:E;
        try done.
      destruct (status =? 200)%Z eqn:Es; [|done].
      apply Z.eqb_eq in Es as ->. injection Ho as <-. eauto 6.
    + intros (i & c & body & Hc & Hserve & ->).
      exists (collected_payload self e i c). split.
      * by apply elem_of_lookup_imap_2.
      * unfold collected_payload. by rewrite Hserve.
  - intros i c _ [Hfail|(status & json & Hresp & Hne)];
      unfold collected_payload.
    + by rewrite Hfail.
    + rewrite Hresp. destruct json; [|done].
      by apply Z.eqb_neq in Hne as ->.
  - unfold collected.
    rewrite <- (length_imap (collected_payload self e) cities).
    generalize (imap (collected_payload self e) cities).
    unfold omap. induction l as [|[p|] l IH]; simpl in *; lia.
  - intros stored Hstored. rewrite collect_batch_spec. cbv zeta.
    fold collected.
    assert (_save_to_db self collected fs
            = Py.Returns (<[db_path self := foldl save_item conn stored]> fs))
      as -> by (apply (save_to_db_returns _ _ _ conn); eauto).
    reflexivity.
  - intros returned fs' log'. rewrite collect_batch_spec. cbv zeta.
    fold collected.
    destruct (_save_to_db self collected fs) as [fs1| |] eqn:E; simpl;
      [|done|done].
    intros [= <- <- <-]. split; [done|]. split; [done|].
    by apply (save_to_db_returns _ _ _ conn) in E.
  - rewrite collect_batch_spec. cbv zeta. fold collected.
    rewrite <- (save_to_db_raises self collected fs conn Hconn).
    destruct (_save_to_db self collected fs); simpl; intuition congruence.
Qed.

(** Three cities against a server that answers 500, then fails, then
    succeeds: three requests go out, the third city alone is collected,
    and the batch returns its payload. *)
Lemma C8_collect_batch_witness :
  Scenario.fresh_files !! db_path (__init__ None ∅).1 = Some empty_db
  ∧ (gather (__init__ None ∅).1 (Scenario.flaky Scenario.thaw)
       [Scenario.omsk; Scenario.sochi; Scenario.omsk] []).1
    = [None; None; Some (Fetched "Omsk" Scenario.thaw "2024-07-03T12:00:00")]
  ∧ length (gather (__init__ None ∅).1 (Scenario.flaky Scenario.thaw)
              [Scenario.omsk; Scenario.sochi; Scenario.omsk] []).2 = 3%nat
  ∧ ∃ fs' log,
      collect_batch (__init__ None ∅).1 (Scenario.flaky Scenario.thaw)
        [Scenario.omsk; Scenario.sochi; Scenario.omsk] Scenario.fresh_files
      = Py.Returns
          ([Fetched "Omsk" Scenario.thaw "2024-07-03T12:00:00"], fs', log).
Proof.
  split; [reflexivity|].
  destruct (C8_collect_batch (__init__ None ∅).1
              (Scenario.flaky Scenario.thaw)
              [Scenario.omsk; Scenario.sochi; Scenario.omsk]
              Scenario.fresh_files empty_db eq_refl)
    as (Hgather & _ & _ & _ & Hreturns & _).
  split; [by rewrite Hgather|]. split; [by rewrite Hgather|].
  eexists _, _.
  apply (Hreturns
           [Payload "Omsk"
              (ApiData
                 (Some (CurrentObj (Some (-4)%Q) (Some 80%Q) (Some 5%Q)))
                 (Some (DailyObj ["2024-11-03"] [Some 0%Q] [Some (-10)%Q]
                          [Some 2%Q]))
                 None)
              "2024-07-03T12:00:00"]).
  repeat constructor.
Defined.

(** *** The path of the store *)

(** C9, as stated, fails for the collector: no arguments make its
    constructor use another path than the fixed one. *)
Lemma C9_collector_path_cannot_be_overridden :
  ¬ ∃ (days : option Z) (fs : files),
      db_path (__init__ days fs).1 = "results/other.db".
Proof. intros (days & fs & H). simpl in H. discriminate H. Qed.

(** C9, amended.  The constructors of the analyzer, the quality checker,
    the visualizer and the chart generator take the path of the store as an
    optional argument: the path given is the one used, the fixed default is
    used when none is given.  The constructor of the collector takes the
    forecast horizon only, and always uses the fixed default path. *)
Theorem C9_store_path_configuration :
  (∀ path,
      DataAnalyzer.db_path (DataAnalyzer.__init__ (Some path)) = path
      ∧ DataQuality.db_path (DataQuality.__init__ (Some path)) = path
      ∧ DataVisualizer.db_path (DataVisualizer.__init__ (Some path)) = path
      ∧ TemperatureChartGenerator.db_path
          (TemperatureChartGenerator.__init__ (Some path)) = path)
  ∧ DataAnalyzer.db_path (DataAnalyzer.__init__ None) = "data/weather_data.db"
  ∧ DataQuality.db_path (DataQuality.__init__ None) = "data/weather_data.db"
  ∧ DataVisualizer.db_path (DataVisualizer.__init__ None)
      = "data/weather_data.db"
  ∧ TemperatureChartGenerator.db_path (TemperatureChartGenerator.__init__ None)
      = "data/weather_data.db"
  ∧ (∀ days fs, db_path (__init__ days fs).1 = "data/weather_data.db")
  ∧ (∀ days fs path, path ≠ "data/weather_data.db" →
       (__init__ days fs).2 !! path = fs !! path).
Proof.
  repeat split; try done.
  intros days fs path Hne. simpl. unfold _init_db. simpl.
  by rewrite lookup_insert_ne.
Qed.

(** *** Repeated runs *)

(** The row written by [INSERT OR REPLACE] is in the table, it is the only
    row of its city, and the rows of the other cities are untouched. *)
Lemma insert_or_replace_replaces (t : list current_row) (c : string)
    (temperature humidity wind_speed : option Q) (at_ : string) :
  let t' := insert_or_replace_current t c temperature humidity wind_speed at_ in
  let row := CurrentRow (next_id cur_id t) c temperature humidity wind_speed
               at_ in
  row ∈ t'
  ∧ (∀ r, r ∈ t' → cur_city r = c → r = row)
  ∧ (∀ r, cur_city r ≠ c → r ∈ t' ↔ r ∈ t).
Proof.
  unfold insert_or_replace_current. simpl. split; [|split].
  - apply elem_of_app. right. left.
  - intros r [[Hne _]%list_elem_of_filter|Hr%list_elem_of_singleton]%elem_of_app;
      done.
  - intros r Hne. rewrite elem_of_app, list_elem_of_filter, list_elem_of_singleton.
    split; [|by auto]. intros [[_ ?]| ->]; [done|]. by simpl in Hne.
Qed.

Lemma files_after_reachable (e : env) (cities : list city_record) (fs : files) :
  reachable fs → reachable (Scenario.files_after e cities fs).
Proof.
  intros Hreach. unfold Scenario.files_after.
  destruct (collection_run None e cities fs) as [[[collected fs'] log]| |]
    eqn:Hrun; [|apply reachable_fresh|apply reachable_fresh].
  eapply reachable_run; [exact Hreach | exact Hrun].
Qed.

(** C2, as stated, fails on a run in which no request gets through: the
    daily and hourly tables are left as they were. *)
Lemma C2_offline_run_adds_no_rows :
  reachable Scenario.summer_files
  ∧ ∃ fs' log before after,
      collection_run None Scenario.offline [Scenario.sochi]
        Scenario.summer_files = Py.Returns ([], fs', log)
      ∧ Scenario.summer_files !! "data/weather_data.db" = Some before
      ∧ fs' !! "data/weather_data.db" = Some after
      ∧ ¬ (length (weather_daily before) < length (weather_daily after))%nat
      ∧ ¬ (length (weather_hourly before) < length (weather_hourly after))%nat.
Proof.
  split; [apply files_after_reachable, reachable_fresh|].
  exists (Scenario.files_after Scenario.offline [Scenario.sochi]
            Scenario.summer_files),
    [request_of (__init__ None ∅).1 Scenario.sochi],
    (default empty_db (Scenario.summer_files !! "data/weather_data.db")),
    (default empty_db
       (Scenario.files_after Scenario.offline [Scenario.sochi]
          Scenario.summer_files !! "data/weather_data.db")).
  split; [vm_compute; reflexivity|].
  split; [vm_compute; reflexivity|]. split; [vm_compute; reflexivity|].
  split; vm_compute; lia.
Qed.

(** C2, amended.  Before, after and at every step of every run from a
    reachable store the table of current observations holds at most one row
    per city, and the observation the run stored last is the row of its
    city; the run appends to the daily
    and to the hourly table, leaving the rows already there in place, exactly
    as many rows as its payloads carry dates and hours, duplicates of earlier
    runs included.  Hence the row counts never decrease, and they strictly
    increase in a run that carries at least one date or hour.  The payloads
    are taken as [_save_to_db] reads them: [stored] holds, item by item,
    what the run read out of the items it returns. *)
Theorem C2_current_unique_daily_hourly_appended (fs : files)
    (days : option Z) (e : env) (cities : list city_record)
    (collected : list fetched) (fs' : files) (log : list request) :
  reachable fs →
  collection_run days e cities fs = Py.Returns (collected, fs', log) →
  let before := default empty_db (fs !! "data/weather_data.db") in
  ∃ stored after new_daily new_hourly,
    store_takes collected stored
    ∧ fs' !! "data/weather_data.db" = Some after
    ∧ one_row_per_city before
    ∧ one_row_per_city after
    ∧ (∀ n, one_row_per_city (foldl save_item before (take n stored)))
    ∧ (∀ items item cur,
         stored = items ++ [item] → current (data item) = Some cur →
         ∃ id r,
           r = CurrentRow id (city item) (temperature_2m cur)
                 (relative_humidity_2m cur) (wind_speed_10m cur)
                 (collected_at item)
           ∧ r ∈ weather_current after
           ∧ ∀ r', r' ∈ weather_current after → cur_city r' = city item → r' = r)
    ∧ weather_daily after = weather_daily before ++ new_daily
    ∧ length new_daily = sum_list (daily_entries <$> stored)
    ∧ weather_hourly after = weather_hourly before ++ new_hourly
    ∧ length new_hourly = sum_list (hourly_entries <$> stored).
Proof.
  intros Hreach Hrun before.
  apply collection_run_returns in Hrun
    as (self & stored & _ & _ & _ & Hstored & ->).
  assert (one_row_per_city before) as Hbefore.
  { unfold before. destruct (fs !! "data/weather_data.db") as [d|] eqn:E; simpl.
    - by apply (reachable_unique fs Hreach _ _ E).
    - constructor. }
  destruct (save_all_daily before stored) as (new_daily & Hdaily & Hnd).
  destruct (save_all_hourly before stored) as (new_hourly & Hhourly & Hnh).
  exists stored, (foldl save_item before stored), new_daily, new_hourly.
  split; [done|].
  split; [apply lookup_insert_eq|]. split; [done|].
  split; [by apply save_all_unique|].
  split; [intros n; by apply save_all_unique|].
  split; [|done].
  intros items item cur -> Hcur. rewrite foldl_app. simpl.
  rewrite save_item_current, Hcur.
  destruct (insert_or_replace_replaces
              (weather_current (foldl save_item before items)) (city item)
              (temperature_2m cur) (relative_humidity_2m cur)
              (wind_speed_10m cur) (collected_at item)) as (Hin & Honly & _).
  eauto.
Qed.

(** A second identical run on the summer store: still one row for the
    city, and the three daily rows are there twice. *)
Lemma C2_current_unique_daily_hourly_appended_witness :
  reachable Scenario.summer_files
  ∧ ∃ collected fs' log after,
      collection_run None (Scenario.always Scenario.summer) [Scenario.sochi]
        Scenario.summer_files = Py.Returns (collected, fs', log)
      ∧ fs' !! "data/weather_data.db" = Some after
      ∧ one_row_per_city after
      ∧ length (weather_current after) = 1%nat
      ∧ length (weather_daily after) = 6%nat
      ∧ length (weather_hourly after) = 4%nat.
Proof.
  assert (reachable Scenario.summer_files) as Hreach
    by apply files_after_reachable, reachable_fresh.
  split; [exact Hreach|].
  assert (collection_run None (Scenario.always Scenario.summer)
            [Scenario.sochi] Scenario.summer_files
          = Py.Returns
              ([Fetched "Sochi" Scenario.summer "2024-07-01T12:00:00"],
               Scenario.files_after (Scenario.always Scenario.summer)
                 [Scenario.sochi] Scenario.summer_files,
               [request_of (__init__ None ∅).1 Scenario.sochi])) as Hrun
    by (vm_compute; reflexivity).
  destruct (C2_current_unique_daily_hourly_appended _ _ _ _ _ _ _ Hreach Hrun)
    as (stored & after & new_daily & new_hourly & _ & Hafter & _ & Hunique & _).
  eexists _, _, _, after. split; [exact Hrun|].
  split; [exact Hafter|]. split; [exact Hunique|].
  vm_compute in Hafter. injection Hafter as <-.
  repeat split.
Defined.

End collector.

(** ** What one row per city means for the quality checks *)

Section one_row.
Import DataQuality Spec.
Local Open Scope Q_scope.






End one_row.
